(** * directory-mapper: the ignore-pattern matcher

    A shallow embedding of the pattern engine of the project structure
    generator (Pattern, PatternList, AddPattern, splitPattern, Matches,
    Pattern.matches, Pattern.matchSegments, matchWildcard and
    NewPatternList), together with the parts of Go's [strings] and
    [path/filepath] packages the engine calls, and the properties of the
    engine stated over that embedding.

    Go strings are byte sequences; they are modelled by [string], one
    [ascii] per byte.  Integer indices are [Z], so that an index expression
    such as [len(pattern)-1] can become negative exactly when it does in Go.
    The operating system (os.Stat, os.Open, os.WriteFile, the line scanner,
    filepath.Rel) is an explicit record of oracles. *)

From Stdlib Require Import String Ascii List Bool Arith ZArith Lia.
Import ListNotations.
Open Scope string_scope.
Open Scope bool_scope.

(** ** Outcomes of Go code

    [Ok a]: the call returns [a] (and a nil error where the Go function has
    an error result).  [Err e]: the call returns the non-nil error [e].
    [Panic]: a run-time panic (slice bounds out of range).  [OutOfFuel]: the
    recursion was cut off by the model's step bound. *)

Inductive goerror : Type :=
| ErrCreatingFile (filename : string)
| ErrOpeningFile (filename : string)
| ErrAddingPattern (pattern : string) (cause : goerror)
| ErrScanner                     (* scanner.Err(): the read failed *)
| ErrTooLong.                    (* scanner.Err(): bufio.ErrTooLong *)

Inductive outcome (A : Type) : Type :=
| Ok (a : A)
| Err (e : goerror)
| Panic
| OutOfFuel.

Arguments Ok {A} a.
Arguments Err {A} e.
Arguments Panic {A}.
Arguments OutOfFuel {A}.

Definition bind {A B : Type} (m : outcome A) (k : A -> outcome B) : outcome B :=
  match m with
  | Ok a => k a
  | Err e => Err e
  | Panic => Panic
  | OutOfFuel => OutOfFuel
  end.

Notation "x <- m ;; k" := (bind m (fun x => k))
  (at level 61, m at next level, right associativity).

(** ** Go's [strings] package, on bytes *)

Module Strings.

Definition len (s : string) : Z := Z.of_nat (String.length s).

(** [s[lo:hi]]: panics unless [0 <= lo <= hi <= len(s)]. *)
Definition slice (s : string) (lo hi : Z) : outcome string :=
  if ((0 <=? lo) && (lo <=? hi) && (hi <=? len s))%Z
  then Ok (substring (Z.to_nat lo) (Z.to_nat (hi - lo)) s)
  else Panic.

(** [len(s) >= len(prefix) && s[:len(prefix)] == prefix] *)
Definition HasPrefix (s prefix : string) : bool :=
  (String.length prefix <=? String.length s)%nat &&
  (substring 0 (String.length prefix) s =? prefix).

(** [len(s) >= len(suffix) && s[len(s)-len(suffix):] == suffix] *)
Definition HasSuffix (s suffix : string) : bool :=
  (String.length suffix <=? String.length s)%nat &&
  (substring (String.length s - String.length suffix) (String.length suffix) s
     =? suffix).

(** [Index(s, substr) >= 0]: some suffix of [s] starts with [substr]. *)
Fixpoint Contains (s substr : string) : bool :=
  HasPrefix s substr ||
  match s with
  | EmptyString => false
  | String _ s' => Contains s' substr
  end.

(** [ContainsRune(s, rune(b))] for a string [s] of ASCII bytes. *)
Fixpoint ContainsByte (s : string) (b : ascii) : bool :=
  match s with
  | EmptyString => false
  | String c s' => Ascii.eqb c b || ContainsByte s' b
  end.

(** [Split(s, sep)] for a one-byte separator: the pieces between the
    occurrences of [sep]; an empty [s] gives one empty piece. *)
Fixpoint Split (s : string) (sep : ascii) : list string :=
  match s with
  | EmptyString => [EmptyString]
  | String c s' =>
      if Ascii.eqb c sep then EmptyString :: Split s' sep
      else match Split s' sep with
           | [] => [String c EmptyString]
           | piece :: pieces => String c piece :: pieces
           end
  end.

(** [Join(elems, sep)] *)
Definition Join (elems : list string) (sep : string) : string :=
  String.concat sep elems.

(** [ReplaceAll(s, old, new)] for a non-empty [old]: the occurrences of
    [old] are replaced from left to right, without overlap.  [skip] counts
    the bytes of an occurrence that are still to be passed over. *)
Fixpoint replaceFrom (skip : nat) (s old new : string) : string :=
  match s with
  | EmptyString => EmptyString
  | String c s' =>
      match skip with
      | S k => replaceFrom k s' old new
      | O =>
          if HasPrefix s old
          then new ++ replaceFrom (String.length old - 1) s' old new
          else String c (replaceFrom 0 s' old new)
      end
  end.

Definition ReplaceAll (s old new : string) : string := replaceFrom 0 s old new.

End Strings.

(** ** Go's [path/filepath] package, on a system whose separator is '/' *)

Module Filepath.

Definition Separator : ascii := "/"%char.

Definition IsPathSeparator (c : ascii) : bool := Ascii.eqb c Separator.

(** [ToSlash] replaces the separator by '/': the identity here. *)
Definition ToSlash (path : string) : string := path.

Definition IsAbs (path : string) : bool := Strings.HasPrefix path "/".

(** The buffer of [Clean] is kept reversed: its head is the byte written
    last, its length is the write index [w]. *)

(** [for out.w > dotdot && !IsPathSeparator(out.index(out.w)) { out.w-- }],
    where [atw] is the byte at index [w], just past the kept prefix. *)
Fixpoint backtrackLoop (dotdot : nat) (atw : ascii) (out : list ascii) : list ascii :=
  if (dotdot <? List.length out)%nat && negb (IsPathSeparator atw)
  then match out with
       | [] => []
       | c :: out' => backtrackLoop dotdot c out'
       end
  else out.

(** [out.w--] followed by the loop above. *)
Definition backtrack (dotdot : nat) (out : list ascii) : list ascii :=
  match out with
  | [] => []
  | c :: out' => backtrackLoop dotdot c out'
  end.

(** The main loop of [Clean] over the unread bytes [path].  [copying] is
    true inside the inner loop that copies a real path element; that loop
    stops at a separator, which the outer loop then skips as an empty
    element, so both are one step here. *)
Fixpoint cleanLoop (rooted copying : bool) (path : list ascii)
         (out : list ascii) (dotdot : nat) : list ascii :=
  match path with
  | [] => out
  | c :: rest =>
      if IsPathSeparator c then cleanLoop rooted false rest out dotdot
      else if copying then cleanLoop rooted true rest (c :: out) dotdot
      else if Ascii.eqb c "."
              && match rest with [] => true | d :: _ => IsPathSeparator d end
      then cleanLoop rooted false rest out dotdot
      else
        match rest with
        | d :: rest2 =>
            if Ascii.eqb c "." && Ascii.eqb d "."
               && match rest2 with [] => true | e :: _ => IsPathSeparator e end
            then
              if (dotdot <? List.length out)%nat
              then cleanLoop rooted false rest2 (backtrack dotdot out) dotdot
              else if negb rooted
              then
                let out1 := if (0 <? List.length out)%nat then Separator :: out else out in
                let out2 := "."%char :: "."%char :: out1 in
                cleanLoop rooted false rest2 out2 (List.length out2)
              else cleanLoop rooted false rest2 out dotdot
            else
              let out1 :=
                if (rooted && negb (List.length out =? 1)%nat)
                   || (negb rooted && negb (List.length out =? 0)%nat)
                then Separator :: out else out in
              cleanLoop rooted true rest (c :: out1) dotdot
        | [] =>
            let out1 :=
              if (rooted && negb (List.length out =? 1)%nat)
                 || (negb rooted && negb (List.length out =? 0)%nat)
              then Separator :: out else out in
            cleanLoop rooted true rest (c :: out1) dotdot
        end
  end.

(** [Clean(path)]: the shortest equivalent path by lexical processing. *)
Definition Clean (path : string) : string :=
  match list_ascii_of_string path with
  | [] => "."
  | c :: rest =>
      let rooted := IsPathSeparator c in
      let out :=
        if rooted then cleanLoop true false rest [Separator] 1
        else cleanLoop false false (c :: rest) [] 0 in
      match out with
      | [] => "."
      | _ => string_of_list_ascii (List.rev out)
      end
  end.

End Filepath.

(** ** The operating system, as seen by the matcher *)

Inductive statResult : Type :=
| StatOk (isDir : bool)          (* os.Stat succeeded; info.IsDir() *)
| StatNotExist                   (* an error for which os.IsNotExist holds *)
| StatError.                     (* any other error *)

Inductive openResult : Type :=
| OpenError
| Opened (lines : list string) (scanErr : bool).
    (* the lines of the file, each without the newline that ends it, and
       whether a read of the file fails after them *)

Record OS : Type := {
  os_Stat : string -> statResult;
  os_WriteFile : string -> bool;           (* true: written, nil error *)
  os_Open : string -> openResult;
  filepath_Rel : string -> string -> option string   (* None: an error *)
}.

(** ** The pattern engine *)

(** Pattern represents a single pattern with its properties. *)
Record Pattern : Type := {
  original : string;          (* Original pattern string *)
  segments : list string;     (* Pattern broken into path segments *)
  isNegation : bool;          (* Whether this is a negation pattern *)
  isExact : bool;             (* Whether this is an exact match pattern *)
  isDir : bool                (* Whether this specifically matches directories *)
}.

(** PatternList represents an ordered list of patterns with matching logic. *)
Record PatternList : Type := {
  patterns : list Pattern;
  basePath : string
}.

Definition NUL : string := String (ascii_of_nat 0) EmptyString.

(** splitPattern splits a pattern into segments handling wildcards. *)
Definition splitPattern (pattern : string) : list string :=
  let pattern := Strings.ReplaceAll pattern "**" NUL in
  let segments := Strings.Split (Filepath.ToSlash pattern) "/"%char in
  List.map (fun seg => Strings.ReplaceAll seg NUL "**") segments.

(** The pattern text once the leading '!' and the trailing '/' are cut
    off, before filepath.Clean. *)
Definition stripPattern (pattern : string) : outcome string :=
  pattern1 <- (if Strings.HasPrefix pattern "!"
               then Strings.slice pattern 1 (Strings.len pattern)
               else Ok pattern) ;;
  if Strings.HasSuffix pattern "/"
  then Strings.slice pattern1 0 (Strings.len pattern1 - 1)
  else Ok pattern1.

(** The rule AddPattern builds from one line. *)
Definition compilePattern (pattern : string) : outcome Pattern :=
  stripped <- stripPattern pattern ;;
  let cleaned := Filepath.Clean stripped in
  Ok {| original := pattern;
        segments := splitPattern cleaned;
        isNegation := Strings.HasPrefix pattern "!";
        isExact := negb (Strings.Contains cleaned "*") || Strings.Contains cleaned "?";
        isDir := Strings.HasSuffix pattern "/" |}.

(** AddPattern adds a new pattern to the list. *)
Definition AddPattern (pl : PatternList) (pattern : string) : outcome PatternList :=
  p <- compilePattern pattern ;;
  Ok {| patterns := patterns pl ++ [p]; basePath := basePath pl |}.

(** The regular expression matchWildcard writes into its string builder. *)
Fixpoint buildRegexBody (pattern : string) : string :=
  match pattern with
  | EmptyString => "$"
  | String c rest =>
      (if Ascii.eqb c "*" then ".*"
       else if Ascii.eqb c "?" then "."
       else if Strings.ContainsByte "[](){}+^$|\." c
            then String "\"%char (String c EmptyString)
            else String c EmptyString)
      ++ buildRegexBody rest
  end.

Definition buildRegex (pattern : string) : string := "^" ++ buildRegexBody pattern.

(** matchWildcard with the regular expression it has built passed in. *)
Definition matchWildcardWith (regex pattern path : string) : outcome bool :=
  if pattern =? "*" then Ok true
  else if Strings.HasPrefix pattern "*" && Strings.HasSuffix pattern "*" then
    middle <- Strings.slice pattern 1 (Strings.len pattern - 1) ;;
    Ok (Strings.Contains path middle)
  else if Strings.HasPrefix pattern "*" then
    suffix <- Strings.slice pattern 1 (Strings.len pattern) ;;
    Ok (Strings.HasSuffix path suffix)
  else if Strings.HasSuffix pattern "*" then
    prefix <- Strings.slice pattern 0 (Strings.len pattern - 1) ;;
    Ok (Strings.HasPrefix path prefix)
  else Ok (pattern =? path).

(** matchWildcard matches a single pattern segment against a path segment. *)
Definition matchWildcard (pattern path : string) : outcome bool :=
  let regex := buildRegex pattern in
  matchWildcardWith regex pattern path.

(** matchSegments performs recursive segment matching; [fuel] bounds the
    depth of the recursion. *)
Fixpoint matchSegmentsFuel (fuel : nat) (patternSegs pathSegs : list string)
  : outcome bool :=
  match fuel with
  | O => OutOfFuel
  | S fuel' =>
      match patternSegs with
      | [] => Ok (List.length pathSegs =? 0)%nat
      | patSeg :: patRest =>
          match pathSegs with
          | [] => Ok (forallb (fun seg => seg =? "**") patternSegs)
          | pathSeg :: pathRest =>
              if patSeg =? "**" then
                skipped <- matchSegmentsFuel fuel' patRest pathSegs ;;
                if skipped then Ok true
                else matchSegmentsFuel fuel' patternSegs pathRest
              else
                ok <- matchWildcard patSeg pathSeg ;;
                if ok then matchSegmentsFuel fuel' patRest pathRest
                else Ok false
          end
      end
  end.

(** The measure the recursion of matchSegments goes down on. *)
Definition segmentsMeasure (patternSegs pathSegs : list string) : nat :=
  List.length patternSegs + List.length pathSegs.

Definition matchSegments (patternSegs pathSegs : list string) : outcome bool :=
  matchSegmentsFuel (S (segmentsMeasure patternSegs pathSegs)) patternSegs pathSegs.

(** The recursive calls of matchSegments: [matchSegmentsCall a b] when the
    body run on [a] may call itself on [b]. *)
Inductive matchSegmentsCall :
  list string * list string -> list string * list string -> Prop :=
| CallSkipStars patRest pathSeg pathRest :
    matchSegmentsCall ("**" :: patRest, pathSeg :: pathRest)
                      (patRest, pathSeg :: pathRest)
| CallKeepStars patRest pathSeg pathRest :
    matchSegmentsCall ("**" :: patRest, pathSeg :: pathRest)
                      ("**" :: patRest, pathRest)
| CallAdvance patSeg patRest pathSeg pathRest :
    (patSeg =? "**") = false ->
    matchWildcard patSeg pathSeg = Ok true ->
    matchSegmentsCall (patSeg :: patRest, pathSeg :: pathRest)
                      (patRest, pathRest).

(** matches checks if a path matches a single pattern. *)
Definition matches (p : Pattern) (path : string) (isDirectory : bool) : outcome bool :=
  if isDir p && negb isDirectory then Ok false
  else
    let pathSegments := Strings.Split path "/"%char in
    if isExact p then Ok (Strings.Join (segments p) "/" =? path)
    else matchSegments (segments p) pathSegments.

(** The loop of Matches over the patterns, from the running [result]. *)
Fixpoint matchesLoop (ps : list Pattern) (relPath : string) (isDirectory : bool)
         (result : bool) : outcome bool :=
  match ps with
  | [] => Ok result
  | p :: ps' =>
      m <- matches p relPath isDirectory ;;
      matchesLoop ps' relPath isDirectory (if m then negb (isNegation p) else result)
  end.

(** The path Matches hands to the patterns: made relative to the base path
    when absolute, then cleaned.  [None]: filepath.Rel failed. *)
Definition relativePath (os : OS) (pl : PatternList) (path : string) : option string :=
  match (if Filepath.IsAbs path then filepath_Rel os (basePath pl) path
         else Some path) with
  | None => None
  | Some relPath => Some (Filepath.ToSlash (Filepath.Clean relPath))
  end.

(** Matches checks if a path matches any pattern in the list. *)
Definition Matches (os : OS) (pl : PatternList) (path : string) : outcome bool :=
  if (List.length (patterns pl) =? 0)%nat then Ok false
  else
    match relativePath os pl path with
    | None => Ok false
    | Some relPath =>
        match os_Stat os path with
        | StatOk isDirectory => matchesLoop (patterns pl) relPath isDirectory false
        | _ => Ok false
        end
    end.

(** bufio.MaxScanTokenSize, the size the buffer of a Scanner made by
    bufio.NewScanner may grow to.  A line and the newline that ends it must
    fit into the buffer together, and an unfinished last line must leave
    room for one more read: Scan gives up with ErrTooLong on a line of
    [MaxScanTokenSize] bytes or more. *)
Definition MaxScanTokenSize : Z := 64 * 1024.

(** dropCR of bufio.ScanLines: a carriage return at the end of the line is
    not part of the token. *)
Fixpoint dropCR (data : string) : string :=
  match data with
  | EmptyString => EmptyString
  | String c rest =>
      match rest with
      | EmptyString => if Ascii.eqb c "013" then EmptyString else data
      | String _ _ => String c (dropCR rest)
      end
  end.

Section NewPatternList.

(** strings.TrimSpace, of Go's library. *)
Variable TrimSpace : string -> string.

(** The scanner loop of NewPatternList over the lines of the file: Scan
    fails on a line too long for the buffer, and scanner.Text() is the line
    without its carriage return. *)
Fixpoint scanLines (pl : PatternList) (lines : list string) : outcome PatternList :=
  match lines with
  | [] => Ok pl
  | line :: rest =>
      if (MaxScanTokenSize <=? Strings.len line)%Z then Err ErrTooLong
      else
        let pattern := TrimSpace (dropCR line) in
        if (pattern =? "") || Strings.HasPrefix pattern "#" then scanLines pl rest
        else
          match AddPattern pl pattern with
          | Ok pl' => scanLines pl' rest
          | Err e => Err (ErrAddingPattern pattern e)
          | Panic => Panic
          | OutOfFuel => OutOfFuel
          end
  end.

(** NewPatternList creates a new pattern list from a file. *)
Definition NewPatternList (os : OS) (filename basePath : string)
  : outcome PatternList :=
  let pl := {| patterns := []; basePath := basePath |} in
  match os_Stat os filename with
  | StatNotExist =>
      if os_WriteFile os filename then Ok pl
      else Err (ErrCreatingFile filename)
  | _ =>
      match os_Open os filename with
      | OpenError => Err (ErrOpeningFile filename)
      | Opened lines scanErr =>
          pl' <- scanLines pl lines ;;
          if scanErr then Err ErrScanner else Ok pl'
      end
  end.

End NewPatternList.


(** ** Derived definitions used to state the properties *)

(** The boolean a call returns; [false] stands in when it returns none. *)
Definition returned (m : outcome bool) : bool :=
  match m with
  | Ok b => b
  | _ => false
  end.

Definition matchSegmentsB (patternSegs pathSegs : list string) : bool :=
  returned (matchSegments patternSegs pathSegs).

Definition matchesB (p : Pattern) (path : string) (isDirectory : bool) : bool :=
  returned (matches p path isDirectory).

(** The rule that decides: the last one, in file order, that matches. *)
Definition lastMatching (ps : list Pattern) (relPath : string) (isDirectory : bool)
  : option Pattern :=
  List.find (fun p => matchesB p relPath isDirectory) (List.rev ps).

(** The verdict of last-match-wins. *)
Definition lastMatchVerdict (ps : list Pattern) (relPath : string)
           (isDirectory : bool) : bool :=
  match lastMatching ps relPath isDirectory with
  | Some p => negb (isNegation p)
  | None => false
  end.

(** AddPattern on each line in turn, from an empty list. *)
Fixpoint addPatterns (pl : PatternList) (lines : list string) : outcome PatternList :=
  match lines with
  | [] => Ok pl
  | line :: rest => pl' <- AddPattern pl line ;; addPatterns pl' rest
  end.

Definition emptyList (base : string) : PatternList :=
  {| patterns := []; basePath := base |}.

(** Anchored glob matching of one segment, stated from the specification's
    words: '*' is any run of bytes, the empty one included, '?' is exactly
    one byte, any other byte is itself. *)
Fixpoint globMatch (pattern : string) : string -> bool :=
  match pattern with
  | EmptyString => fun segment => segment =? ""
  | String c pattern' =>
      if Ascii.eqb c "*" then
        fix star (segment : string) : bool :=
          globMatch pattern' segment ||
          match segment with
          | EmptyString => false
          | String _ segment' => star segment'
          end
      else
        fun segment =>
          match segment with
          | EmptyString => false
          | String d segment' =>
              (Ascii.eqb c "?" || Ascii.eqb c d) && globMatch pattern' segment'
          end
  end.

(** A file tree in which [name] is the only entry. *)
Definition osWith (name : string) (isDirectory : bool) : OS :=
  {| os_Stat := fun p => if p =? name then StatOk isDirectory else StatNotExist;
     os_WriteFile := fun _ => true;
     os_Open := fun _ => OpenError;
     filepath_Rel := fun _ _ => None |}.

(** ** The tree walker and the report writer *)

(** The byte 0, which splitPattern uses as the stand-in for "**". *)
Definition NULc : ascii := ascii_of_nat 0.

(** The lines the scanner loop of NewPatternList turns into rules: the
    trimmed texts of the lines that are neither empty nor comments. *)
Definition keptLines (TrimSpace : string -> string) (lines : list string)
  : list string :=
  List.filter (fun pattern => negb ((pattern =? "") || Strings.HasPrefix pattern "#"))
              (List.map (fun line => TrimSpace (dropCR line)) lines).

(** TreeNode represents a file or directory in the tree structure. *)
#[local] Set Warnings "-register-all".
Inductive TreeNode : Type :=
| Node (name : string) (isDir : bool) (children : list TreeNode).

Definition nodeName (n : TreeNode) : string := let 'Node name _ _ := n in name.
Definition nodeIsDir (n : TreeNode) : bool := let 'Node _ isDir _ := n in isDir.
Definition nodeChildren (n : TreeNode) : list TreeNode :=
  let 'Node _ _ children := n in children.

(** The errors the walker and the writer return. *)
Inductive treeError : Type :=
| ErrGettingFileInfo
| ErrGettingRootInfo
| ErrReadingDirectory
| ErrCheckingFile (path : string) (cause : treeError)
| ErrCheckingContents (path : string).

(** [Ret a]: the call returns [a] and a nil error.  [Raise e]: it returns
    the error [e].  [Abort]: a call into the matcher did not return a
    boolean.  [NoFuel]: the recursion was cut off by the step bound. *)
Inductive walk (A : Type) : Type :=
| Ret (a : A)
| Raise (e : treeError)
| Abort
| NoFuel.

Arguments Ret {A} a.
Arguments Raise {A} e.
Arguments Abort {A}.
Arguments NoFuel {A}.

Definition ofOutcome {A : Type} (m : outcome A) : walk A :=
  match m with
  | Ok a => Ret a
  | _ => Abort
  end.

(** What entry.Info() and os.Stat tell the walker about a file. *)
Record FileInfo : Type := {
  info_IsDir : bool;
  info_Size : Z
}.

(** An os.DirEntry: its name, and the result of its Info method
    ([None]: an error). *)
Record DirEntry : Type := {
  entry_Name : string;
  entry_Info : option FileInfo
}.

(** The file tree the walker runs on: the matcher's view of the system,
    the Name() of the FileInfo os.Stat returns for a path, os.ReadDir
    ([None]: an error) and os.ReadFile ([None]: an error). *)
Record TreeOS : Type := {
  tree_os : OS;
  stat_Name : string -> string;
  os_ReadDir : string -> option (list DirEntry);
  os_ReadFile : string -> option string
}.

(** A Go map[string]bool literal; a missing key reads as false. *)
Definition mapGet (m : list (string * bool)) (key : string) : bool :=
  match List.find (fun kv => fst kv =? key) m with
  | Some kv => snd kv
  | None => false
  end.

Definition skipDirs : list (string * bool) :=
  [ (".git", true); ("node_modules", true); ("bin", true); ("obj", true);
    ("build", true); ("dist", true); ("target", true); (".idea", true);
    (".vscode", true); ("__pycache__", true); (".next", true); ("vendor", true) ].

Definition skipExtensions : list (string * bool) :=
  [ (".exe", true); (".dll", true); (".so", true); (".dylib", true);
    (".bin", true); (".obj", true); (".class", true); (".pyc", true);
    (".pdb", true); (".cache", true); (".jpg", true); (".jpeg", true);
    (".png", true); (".gif", true); (".ico", true); (".pdf", true);
    (".zip", true); (".tar", true); (".gz", true); (".rar", true);
    (".7z", true); (".db", true); (".sqlite", true); (".mdb", true);
    (".iso", true); (".img", true); (".log", true); (".lock", true) ].

Definition skipFiles : list (string * bool) :=
  [ ("project_structure.txt", true); (".project_structure_ignore", true);
    (".project_structure_filter", true); (".DS_Store", true);
    ("Thumbs.db", true); (".gitignore", true); (".env", true);
    (".env.local", true); ("desktop.ini", true) ].

Definition maxFileSize : Z := 50 * 1024 * 1024.

(** filepath.Ext: the suffix from the last '.' of the last element; the
    loop runs from the last byte down and stops at a separator.  [tail]
    holds the bytes already passed. *)
Fixpoint extLoop (reversed tail : list ascii) : string :=
  match reversed with
  | [] => ""
  | c :: before =>
      if Filepath.IsPathSeparator c then ""
      else if Ascii.eqb c "." then string_of_list_ascii (c :: tail)
      else extLoop before (c :: tail)
  end.

Definition filepathExt (path : string) : string :=
  extLoop (List.rev (list_ascii_of_string path)) [].

(** filepath.Join of two elements: empty elements are dropped, the rest
    joined by the separator and cleaned. *)
Definition filepathJoin (a b : string) : string :=
  if negb (a =? "") then Filepath.Clean (a ++ "/" ++ b)
  else if negb (b =? "") then Filepath.Clean b
  else "".

Definition isUpperByte (c : ascii) : bool :=
  (nat_of_ascii "A" <=? nat_of_ascii c)%nat && (nat_of_ascii c <=? nat_of_ascii "Z")%nat.

Definition lowerByte (c : ascii) : ascii :=
  if isUpperByte c then ascii_of_nat (nat_of_ascii c + (nat_of_ascii "a" - nat_of_ascii "A"))
  else c.

Fixpoint mapBytes (f : ascii -> ascii) (s : string) : string :=
  match s with
  | EmptyString => EmptyString
  | String c s' => String (f c) (mapBytes f s')
  end.

Fixpoint allBytes (f : ascii -> bool) (s : string) : bool :=
  match s with
  | EmptyString => true
  | String c s' => f c && allBytes f s'
  end.

Fixpoint anyByte (f : ascii -> bool) (s : string) : bool :=
  match s with
  | EmptyString => false
  | String c s' => f c || anyByte f s'
  end.

(** [c < utf8.RuneSelf] *)
Definition isASCIIByte (c : ascii) : bool := (nat_of_ascii c <? 128)%nat.

Section Walker.

(** strings.Map(unicode.ToLower, s), the path strings.ToLower takes for a
    string with a byte outside ASCII. *)
Variable unicodeToLower : string -> string.

(** strings.ToLower *)
Definition stringsToLower (s : string) : string :=
  let isASCII := allBytes isASCIIByte s in
  let hasUpper := anyByte isUpperByte s in
  if isASCII then
    if negb hasUpper then s else mapBytes lowerByte s
  else unicodeToLower s.

(** checkReadPermission: the error of os.Open, if any. *)
Definition checkReadPermission (os : TreeOS) (path : string) : bool :=
  match os_Open (tree_os os) path with
  | OpenError => false
  | Opened _ _ => true
  end.

Definition shouldSkipFile (os : TreeOS) (entry : DirEntry) (fullPath : string)
           (ignoreMatcher : option PatternList) : walk bool :=
  match entry_Info entry with
  | None => Raise ErrGettingFileInfo
  | Some info =>
      match (match ignoreMatcher with
             | None => Ret false
             | Some pl => ofOutcome (Matches (tree_os os) pl fullPath)
             end) with
      | Ret true => Ret true
      | Ret false =>
          if mapGet skipFiles (entry_Name entry) then Ret true
          else if info_IsDir info && mapGet skipDirs (entry_Name entry) then Ret true
          else if negb (info_IsDir info) then
            let ext := stringsToLower (filepathExt (entry_Name entry)) in
            if mapGet skipExtensions ext then Ret true
            else if (maxFileSize <? info_Size info)%Z then Ret true
            else if negb (checkReadPermission os fullPath) then Ret true
            else Ret false
          else Ret false
      | Raise e => Raise e
      | Abort => Abort
      | NoFuel => NoFuel
      end
  end.

(** The verdict of the ignore rules on [fullPath]; false without a
    matcher. *)
Definition rulesExclude (os : TreeOS) (ignoreMatcher : option PatternList)
           (fullPath : string) : bool :=
  match ignoreMatcher with
  | None => false
  | Some pl => returned (Matches (tree_os os) pl fullPath)
  end.

(** The loop of createTree over the directory entries; [descend] is the
    recursive call and [children] the children appended so far. *)
Fixpoint createChildren (descend : string -> walk TreeNode) (os : TreeOS)
         (root : string) (ignoreMatcher : option PatternList)
         (entries : list DirEntry) (children : list TreeNode)
  : walk (list TreeNode) :=
  match entries with
  | [] => Ret children
  | entry :: rest =>
      let childPath := filepathJoin root (entry_Name entry) in
      match shouldSkipFile os entry childPath ignoreMatcher with
      | Raise e => Raise (ErrCheckingFile childPath e)
      | Abort => Abort
      | NoFuel => NoFuel
      | Ret true => createChildren descend os root ignoreMatcher rest children
      | Ret false =>
          match descend childPath with
          | Ret childNode =>
              createChildren descend os root ignoreMatcher rest
                             (children ++ [childNode])%list
          | Raise e => Raise e
          | Abort => Abort
          | NoFuel => NoFuel
          end
      end
  end.

Fixpoint createTree (fuel : nat) (os : TreeOS) (root : string)
         (ignoreMatcher : option PatternList) : walk TreeNode :=
  match fuel with
  | O => NoFuel
  | S fuel' =>
      match os_Stat (tree_os os) root with
      | StatOk isDirectory =>
          if negb isDirectory then Ret (Node (stat_Name os root) isDirectory [])
          else
            match os_ReadDir os root with
            | None => Raise ErrReadingDirectory
            | Some entries =>
                match createChildren (fun childPath =>
                                        createTree fuel' os childPath ignoreMatcher)
                                     os root ignoreMatcher entries [] with
                | Ret children => Ret (Node (stat_Name os root) isDirectory children)
                | Raise e => Raise e
                | Abort => Abort
                | NoFuel => NoFuel
                end
            end
      | _ => Raise ErrGettingRootInfo
      end
  end.

(** Whether the loop of createTree goes down into [entry]. *)
Definition keepsEntry (os : TreeOS) (root : string)
           (ignoreMatcher : option PatternList) (entry : DirEntry) : bool :=
  match shouldSkipFile os entry (filepathJoin root (entry_Name entry))
                       ignoreMatcher with
  | Ret false => true
  | _ => false
  end.

End Walker.

Definition displayName (node : TreeNode) : string :=
  if nodeIsDir node then "[" ++ nodeName node ++ "]" else nodeName node.

Definition currentPrefix (prefix : string) (isLast : bool) : string :=
  if prefix =? "" then ""
  else if isLast then prefix ++ "└── " else prefix ++ "├── ".

Definition childPrefix (prefix : string) (isLast : bool) : string :=
  if prefix =? "" then "    "
  else if isLast then prefix ++ "    " else prefix ++ "│   ".

(** printTree: the lines it writes, one per fmt.Fprintln. *)
Fixpoint printTree (node : TreeNode) (prefix : string) (isLast : bool)
  : list string :=
  match node with
  | Node name isDir children =>
      (currentPrefix prefix isLast ++ displayName (Node name isDir children))
        :: (fix loop (rest : list TreeNode) : list string :=
              match rest with
              | [] => []
              | child :: rest' =>
                  (printTree child (childPrefix prefix isLast)
                             (match rest' with [] => true | _ => false end)
                     ++ loop rest')%list
              end) children
  end.

(** The loop of printTree over the children [rest] still to be printed. *)
Fixpoint printChildren (rest : list TreeNode) (prefix : string) : list string :=
  match rest with
  | [] => []
  | child :: rest' =>
      (printTree child prefix (match rest' with [] => true | _ => false end)
       ++ printChildren rest' prefix)%list
  end.

(** The nodes of a tree, parents before children, children in order. *)
Fixpoint preorder (node : TreeNode) : list TreeNode :=
  match node with
  | Node name isDir children =>
      Node name isDir children
        :: (fix loop (rest : list TreeNode) : list TreeNode :=
              match rest with
              | [] => []
              | child :: rest' => (preorder child ++ loop rest')%list
              end) children
  end.

(** The loop of [preorder] over the children. *)
Fixpoint preorderChildren (rest : list TreeNode) : list TreeNode :=
  match rest with
  | [] => []
  | child :: rest' => (preorder child ++ preorderChildren rest')%list
  end.

(** writeFileContents: the text of the output file after the call, where
    [output] is its text before the call, and the error the call returns
    ([None]: nil).  What is written before an error stays in the file. *)
Fixpoint writeFileContents (os : TreeOS) (node : TreeNode) (currentPath : string)
         (output : string) : string * option treeError :=
  match node with
  | Node name isDir children =>
      let fullPath := filepathJoin currentPath name in
      let loop :=
        fix loop (rest : list TreeNode) (output : string)
          : string * option treeError :=
          match rest with
          | [] => (output, None)
          | child :: rest' =>
              let (output', err) := writeFileContents os child fullPath output in
              match err with
              | None => loop rest' output'
              | Some e => (output', Some e)
              end
          end in
      if negb isDir then
        match os_Stat (tree_os os) fullPath with
        | StatNotExist => (output, None)
        | StatError => (output, Some (ErrCheckingContents fullPath))
        | StatOk _ =>
            match os_ReadFile os fullPath with
            | None => (output, None)
            | Some content =>
                loop children
                     (output ++ ("<" ++ name ++ ">" ++ String "010" "")
                             ++ content
                             ++ (String "010" "" ++ "</" ++ name ++ ">" ++ String "010" ""))
            end
        end
      else loop children output
  end.

(** The loop of writeFileContents over the children [rest]. *)
Fixpoint writeChildren (os : TreeOS) (rest : list TreeNode) (fullPath : string)
         (output : string) : string * option treeError :=
  match rest with
  | [] => (output, None)
  | child :: rest' =>
      let (output', err) := writeFileContents os child fullPath output in
      match err with
      | None => writeChildren os rest' fullPath output'
      | Some e => (output', Some e)
      end
  end.

(** The block writeFileContents writes for a file it could read. *)
Definition fileBlock (name content : string) : string :=
  ("<" ++ name ++ ">" ++ String "010" "")
    ++ content
    ++ (String "010" "" ++ "</" ++ name ++ ">" ++ String "010" "").

(** A line of the tree listing that ends with the display name of [node]. *)
Definition lineOf (line : string) (node : TreeNode) : Prop :=
  exists connector, line = connector ++ displayName node.

(** What a call of writeFileContents comes to: the output file holds the
    text it held before, with more text after it, and the error returned is
    nil or the one for a path on which os.Stat failed. *)
Definition writeResult (os : TreeOS) (output : string)
           (r : string * option treeError) : Prop :=
  (exists added, fst r = output ++ added)
  /\ (snd r = None
      \/ exists path, snd r = Some (ErrCheckingContents path)
                      /\ os_Stat (tree_os os) path = StatError).

(** A walk that neither ran out of steps nor lost the matcher. *)
Definition finished {A : Type} (r : walk A) : Prop :=
  (exists a, r = Ret a) \/ (exists e, r = Raise e).

(** A node that is not a directory has no children. *)
Definition leafIfFile (n : TreeNode) : Prop :=
  nodeIsDir n = false -> nodeChildren n = [].

(** A small project: /w holds a.png, build/, keep.log, notes.txt and src/,
    and /w/src holds main.go and x.tmp. *)
Definition exampleEntry (name : string) (isDirectory : bool) : DirEntry :=
  {| entry_Name := name;
     entry_Info := Some {| info_IsDir := isDirectory; info_Size := 3 |} |}.

Definition exampleReadDir (dir : string) : option (list DirEntry) :=
  if dir =? "/w" then
    Some [ exampleEntry "a.png" false; exampleEntry "build" true;
           exampleEntry "keep.log" false; exampleEntry "notes.txt" false;
           exampleEntry "src" true ]
  else if dir =? "/w/src" then
    Some [ exampleEntry "main.go" false; exampleEntry "x.tmp" false ]
  else None.

Definition exampleIsDir (path : string) : bool :=
  (path =? "/w") || (path =? "/w/src") || (path =? "/w/build").

Definition exampleRel (base target : string) : option string :=
  if Strings.HasPrefix target (base ++ "/")
  then Some (substring (S (String.length base)) (String.length target) target)
  else None.

Definition exampleTree : TreeOS :=
  {| tree_os :=
       {| os_Stat := fun path => StatOk (exampleIsDir path);
          os_WriteFile := fun _ => true;
          os_Open := fun _ => Opened [] false;
          filepath_Rel := exampleRel |};
     stat_Name := fun path => List.last (Strings.Split path "/") "";
     os_ReadDir := exampleReadDir;
     os_ReadFile := fun path => Some ("// " ++ path) |}.

Definition exampleDepth (path : string) : nat :=
  if path =? "/w" then 2 else if path =? "/w/src" then 1 else 0.

(** The rules "*.tmp" and "**/*.tmp", compiled. *)
Definition exampleRules : PatternList :=
  {| patterns :=
       [ {| original := "*.tmp"; segments := ["*.tmp"]; isNegation := false;
            isExact := false; isDir := false |};
         {| original := "**/*.tmp"; segments := ["**"; "*.tmp"];
            isNegation := false; isExact := false; isDir := false |} ];
     basePath := "/w" |}.

(** The rule compilePattern builds from [line]; compilePattern always
    returns one, the fallback is never taken. *)
Definition compiled (line : string) : Pattern :=
  match compilePattern line with
  | Ok p => p
  | _ => {| original := line; segments := []; isNegation := false;
            isExact := true; isDir := false |}
  end.

(** The rule list read from [lines], relative to [base]. *)
Definition rulesOf (base : string) (lines : list string) : PatternList :=
  {| patterns := List.map compiled lines; basePath := base |}.




(** A rule file with a comment, a blank line and two rules. *)
Definition exampleRuleFile : OS :=
  {| os_Stat := fun _ => StatOk false;
     os_WriteFile := fun _ => true;
     os_Open := fun _ => Opened ["# rules"; "*.log"; ""; "!keep.log"] false;
     filepath_Rel := fun _ _ => None |}.

(** ** The earlier matcher: extension and directory patterns *)

Module Legacy.

(** PatternType indicates whether patterns are for ignoring or filtering. *)
Inductive PatternType : Type := Ignore | Filter.

Definition PatternType_eqb (a b : PatternType) : bool :=
  match a, b with
  | Ignore, Ignore | Filter, Filter => true
  | _, _ => false
  end.

Record Pattern : Type := {
  extension : string;   (* For patterns like "*.log" *)
  directory : string    (* For patterns like "src/cmd/" *)
}.

(** PatternList represents an ordered list of patterns. *)
Record PatternList : Type := {
  patterns : list Pattern;
  basePath : string;
  matchType : PatternType
}.

(** determinePatternType checks which pattern file exists and should be
    used.  [Err]: the ignore file could not be created. *)
Definition determinePatternType (os : OS) (ignoreFile filterFile : string)
  : outcome (string * PatternType) :=
  let ignoreExists :=
    match os_Stat os ignoreFile with StatOk _ => true | _ => false end in
  let filterExists :=
    match os_Stat os filterFile with StatOk _ => true | _ => false end in
  if ignoreExists then Ok (ignoreFile, Ignore)
  else if filterExists then Ok (filterFile, Filter)
  else if os_WriteFile os ignoreFile then Ok (ignoreFile, Ignore)
  else Err (ErrCreatingFile ignoreFile).

(** strings.TrimPrefix *)
Definition TrimPrefix (s prefix : string) : outcome string :=
  if Strings.HasPrefix s prefix
  then Strings.slice s (Strings.len prefix) (Strings.len s)
  else Ok s.

(** The pattern AddPattern builds from one line. *)
Definition compilePattern (pattern : string) : outcome Pattern :=
  if Strings.HasPrefix pattern "*." then
    ext <- TrimPrefix pattern "*" ;;
    Ok {| extension := ext; directory := "" |}
  else
    Ok {| extension := ""; directory := Filepath.Clean pattern |}.

(** AddPattern adds a new pattern to the list. *)
Definition AddPattern (pl : PatternList) (pattern : string) : outcome PatternList :=
  p <- compilePattern pattern ;;
  Ok {| patterns := patterns pl ++ [p];
        basePath := basePath pl;
        matchType := matchType pl |}.

(** The test the loop of Matches makes on one pattern. *)
Definition patternMatches (p : Pattern) (relPath : string) : bool :=
  (negb (extension p =? "") && Strings.HasSuffix relPath (extension p))
  || (negb (directory p =? "") && Strings.HasPrefix relPath (directory p)).

(** The loop of Matches: the first pattern that matches ends it. *)
Fixpoint matchesLoop (ps : list Pattern) (relPath : string) : bool :=
  match ps with
  | [] => false
  | p :: ps' =>
      if negb (extension p =? "") && Strings.HasSuffix relPath (extension p)
      then true
      else if negb (directory p =? "")
      then if Strings.HasPrefix relPath (directory p) then true
           else matchesLoop ps' relPath
      else matchesLoop ps' relPath
  end.

(** Matches checks if a path matches any pattern in the list. *)
Definition Matches (os : OS) (pl : PatternList) (path : string) : bool :=
  if (List.length (patterns pl) =? 0)%nat
  then PatternType_eqb (matchType pl) Filter
  else
    match (if Filepath.IsAbs path then filepath_Rel os (basePath pl) path
           else Some path) with
    | None => false
    | Some relPath => matchesLoop (patterns pl) (Filepath.Clean relPath)
    end.

End Legacy.


(** ** Facts about the string operations *)

Lemma Ok_inj {A : Type} (a b : A) : Ok a = Ok b -> a = b.
Proof. intros H. now injection H. Qed.

Lemma substring_0_0 (s : string) : substring 0 0 s = "".
Proof. destruct s; reflexivity. Qed.

Lemma HasPrefix_byte (s : string) (c : ascii) :
  Strings.HasPrefix s (String c "") = true -> exists r, s = String c r.
Proof.
  unfold Strings.HasPrefix. destruct s as [|d r]; simpl; [discriminate|].
  rewrite substring_0_0. intros H.
  destruct (Ascii.eqb_spec d c) as [->|]; [now exists r | discriminate].
Qed.

Lemma HasSuffix_nonempty (s : string) (c : ascii) :
  Strings.HasSuffix s (String c "") = true -> (1 <= String.length s)%nat.
Proof.
  unfold Strings.HasSuffix. intros H. apply andb_prop in H as [H _].
  now apply Nat.leb_le in H.
Qed.

Lemma slice_in_range (s : string) (lo hi : Z) :
  (0 <= lo)%Z -> (lo <= hi)%Z -> (hi <= Strings.len s)%Z ->
  exists t, Strings.slice s lo hi = Ok t.
Proof.
  intros H1 H2 H3. unfold Strings.slice.
  apply Z.leb_le in H1, H2, H3. rewrite H1, H2, H3. simpl. eauto.
Qed.

Lemma len_String (c : ascii) (s : string) :
  Strings.len (String c s) = (1 + Strings.len s)%Z.
Proof. unfold Strings.len. simpl String.length. lia. Qed.

Lemma len_nonneg (s : string) : (0 <= Strings.len s)%Z.
Proof. unfold Strings.len. lia. Qed.

(** ** matchWildcard returns *)

Lemma matchWildcardWith_returns (regex pattern path : string) :
  exists b, matchWildcardWith regex pattern path = Ok b.
Proof.
  unfold matchWildcardWith.
  destruct (pattern =? "*") eqn:Hstar; [eauto|].
  destruct (Strings.HasPrefix pattern "*") eqn:Hpre.
  - apply HasPrefix_byte in Hpre as [r ->].
    pose proof (len_nonneg r) as Hr0.
    destruct (Strings.HasSuffix (String "*" r) "*") eqn:Hsuf; simpl andb; cbv iota.
    + assert (Hr : (1 <= Strings.len r)%Z).
      { destruct r as [|d r']; [discriminate Hstar|].
        rewrite len_String. pose proof (len_nonneg r'). lia. }
      assert (exists t, Strings.slice (String "*" r) 1
                          (Strings.len (String "*" r) - 1) = Ok t) as [t Ht]
        by (apply slice_in_range; rewrite ?len_String; lia).
      rewrite Ht. simpl. eauto.
    + assert (exists t, Strings.slice (String "*" r) 1
                          (Strings.len (String "*" r)) = Ok t) as [t Ht]
        by (apply slice_in_range; rewrite ?len_String; lia).
      rewrite Ht. simpl. eauto.
  - simpl andb. cbv iota.
    destruct (Strings.HasSuffix pattern "*") eqn:Hsuf; [|eauto].
    apply HasSuffix_nonempty in Hsuf.
    assert (exists t, Strings.slice pattern 0 (Strings.len pattern - 1) = Ok t)
      as [t Ht] by (apply slice_in_range; unfold Strings.len; lia).
    rewrite Ht. simpl. eauto.
Qed.

Lemma matchWildcard_returns (pattern path : string) :
  exists b, matchWildcard pattern path = Ok b.
Proof. unfold matchWildcard. apply matchWildcardWith_returns. Qed.

(** ** matchSegments returns: the step bound is never reached *)

Lemma matchSegmentsFuel_returns (fuel : nat) :
  forall patternSegs pathSegs,
    (segmentsMeasure patternSegs pathSegs < fuel)%nat ->
    exists b, matchSegmentsFuel fuel patternSegs pathSegs = Ok b.
Proof.
  unfold segmentsMeasure.
  induction fuel as [|fuel IH]; intros pat path Hlt; [lia|].
  destruct pat as [|patSeg patRest]; [simpl; eauto|].
  destruct path as [|pathSeg pathRest]; [simpl; eauto|].
  cbn [matchSegmentsFuel]. simpl List.length in Hlt.
  destruct (patSeg =? "**").
  - destruct (IH patRest (pathSeg :: pathRest)) as [b Hb]; [simpl; lia|].
    rewrite Hb. cbn [bind]. destruct b; [eauto|].
    apply IH. simpl. lia.
  - destruct (matchWildcard_returns patSeg pathSeg) as [b Hb].
    rewrite Hb. cbn [bind]. destruct b; [|eauto].
    apply IH. lia.
Qed.

Lemma matchSegmentsFuel_mono (fuel : nat) :
  forall patternSegs pathSegs b,
    matchSegmentsFuel fuel patternSegs pathSegs = Ok b ->
    forall fuel', (fuel <= fuel')%nat ->
                  matchSegmentsFuel fuel' patternSegs pathSegs = Ok b.
Proof.
  induction fuel as [|fuel IH]; intros pat path b H fuel' Hle; [discriminate|].
  destruct fuel' as [|fuel']; [lia|].
  assert (Hle' : (fuel <= fuel')%nat) by lia.
  destruct pat as [|patSeg patRest]; [exact H|].
  destruct path as [|pathSeg pathRest]; [exact H|].
  cbn [matchSegmentsFuel] in *.
  destruct (patSeg =? "**").
  - destruct (matchSegmentsFuel fuel patRest (pathSeg :: pathRest)) as [s| | |] eqn:Hs;
      try discriminate.
    rewrite (IH _ _ _ Hs _ Hle'). cbn [bind] in *.
    destruct s; [exact H|]. now apply IH with (fuel' := fuel') in H.
  - destruct (matchWildcard patSeg pathSeg) as [w| | |]; try discriminate.
    cbn [bind] in *. destruct w; [|exact H].
    now apply IH with (fuel' := fuel') in H.
Qed.

Lemma matchSegments_returns (patternSegs pathSegs : list string) :
  matchSegments patternSegs pathSegs = Ok (matchSegmentsB patternSegs pathSegs).
Proof.
  unfold matchSegmentsB.
  destruct (matchSegmentsFuel_returns (S (segmentsMeasure patternSegs pathSegs))
              patternSegs pathSegs) as [b Hb]; [lia|].
  unfold matchSegments. now rewrite Hb.
Qed.

Lemma matchSegmentsFuel_enough (fuel : nat) (patternSegs pathSegs : list string) :
  (segmentsMeasure patternSegs pathSegs < fuel)%nat ->
  matchSegmentsFuel fuel patternSegs pathSegs
  = Ok (matchSegmentsB patternSegs pathSegs).
Proof.
  intros Hlt. pose proof (matchSegments_returns patternSegs pathSegs) as H.
  unfold matchSegments in H.
  apply matchSegmentsFuel_mono with (fuel' := fuel) in H; [exact H | lia].
Qed.

(** The equations of matchSegments, one per branch of its body. *)

Lemma matchSegmentsB_nil (pathSegs : list string) :
  matchSegmentsB [] pathSegs = (List.length pathSegs =? 0)%nat.
Proof. reflexivity. Qed.

Lemma matchSegmentsB_exhausted (patternSegs : list string) :
  matchSegmentsB patternSegs [] = forallb (fun seg => seg =? "**") patternSegs.
Proof. destruct patternSegs; reflexivity. Qed.

Lemma matchSegmentsB_stars (patRest : list string) (pathSeg : string)
      (pathRest : list string) :
  matchSegmentsB ("**" :: patRest) (pathSeg :: pathRest)
  = matchSegmentsB patRest (pathSeg :: pathRest)
    || matchSegmentsB ("**" :: patRest) pathRest.
Proof.
  unfold matchSegmentsB at 1. unfold matchSegments.
  cbn [matchSegmentsFuel]. simpl (_ =? _).
  rewrite !matchSegmentsFuel_enough by (unfold segmentsMeasure; simpl; lia).
  cbn [bind]. now destruct (matchSegmentsB patRest (pathSeg :: pathRest)).
Qed.

Lemma matchSegmentsB_segment (patSeg : string) (patRest : list string)
      (pathSeg : string) (pathRest : list string) :
  (patSeg =? "**") = false ->
  matchSegmentsB (patSeg :: patRest) (pathSeg :: pathRest)
  = returned (matchWildcard patSeg pathSeg) && matchSegmentsB patRest pathRest.
Proof.
  intros Hne. unfold matchSegmentsB at 1. unfold matchSegments.
  cbn [matchSegmentsFuel]. rewrite Hne.
  destruct (matchWildcard_returns patSeg pathSeg) as [w ->]. cbn [bind returned].
  destruct w; [|reflexivity].
  rewrite matchSegmentsFuel_enough by (unfold segmentsMeasure; simpl; lia).
  reflexivity.
Qed.

Lemma matches_returns (p : Pattern) (path : string) (isDirectory : bool) :
  matches p path isDirectory = Ok (matchesB p path isDirectory).
Proof.
  unfold matchesB, matches.
  destruct (isDir p && negb isDirectory); [reflexivity|].
  destruct (isExact p); [reflexivity|].
  now rewrite matchSegments_returns.
Qed.

(** ** The loop of Matches keeps the last match *)

Lemma find_snoc {A : Type} (f : A -> bool) (l : list A) (x : A) :
  List.find f (l ++ [x]) =
  match List.find f l with
  | Some y => Some y
  | None => if f x then Some x else None
  end.
Proof.
  induction l as [|a l IH]; simpl; [reflexivity|].
  destruct (f a); [reflexivity | exact IH].
Qed.

Lemma lastMatching_cons (p : Pattern) (ps : list Pattern) (relPath : string)
      (isDirectory : bool) :
  lastMatching (p :: ps) relPath isDirectory =
  match lastMatching ps relPath isDirectory with
  | Some q => Some q
  | None => if matchesB p relPath isDirectory then Some p else None
  end.
Proof.
  unfold lastMatching. cbn [List.rev].
  exact (find_snoc (fun q => matchesB q relPath isDirectory) (List.rev ps) p).
Qed.

Lemma matchesLoop_last (ps : list Pattern) (relPath : string) (isDirectory : bool) :
  forall result,
    matchesLoop ps relPath isDirectory result =
    Ok (match lastMatching ps relPath isDirectory with
        | Some p => negb (isNegation p)
        | None => result
        end).
Proof.
  induction ps as [|p ps IH]; intros result; [reflexivity|].
  cbn [matchesLoop]. rewrite matches_returns. cbn [bind].
  rewrite IH, lastMatching_cons.
  destruct (lastMatching ps relPath isDirectory); [reflexivity|].
  now destruct (matchesB p relPath isDirectory).
Qed.

Lemma Matches_verdict (os : OS) (pl : PatternList) (path relPath : string)
      (isDirectory : bool) :
  relativePath os pl path = Some relPath ->
  os_Stat os path = StatOk isDirectory ->
  Matches os pl path = Ok (lastMatchVerdict (patterns pl) relPath isDirectory).
Proof.
  intros Hrel Hstat. unfold Matches, lastMatchVerdict. rewrite Hrel, Hstat.
  destruct (patterns pl) as [|p ps]; [reflexivity|].
  simpl (_ =? _)%nat. cbv iota. apply matchesLoop_last.
Qed.

Lemma Matches_returns (os : OS) (pl : PatternList) (path : string) :
  exists b, Matches os pl path = Ok b.
Proof.
  unfold Matches.
  destruct (List.length (patterns pl) =? 0)%nat; [eauto|].
  destruct (relativePath os pl path); [|eauto].
  destruct (os_Stat os path); eauto.
  rewrite matchesLoop_last. eauto.
Qed.

(** ** AddPattern returns *)

Lemma substring_whole (s : string) : substring 0 (String.length s) s = s.
Proof. induction s as [|c s IH]; simpl; [reflexivity | now rewrite IH]. Qed.

(** [s[1:]] drops the first byte. *)
Lemma slice_tail (c : ascii) (r : string) :
  Strings.slice (String c r) 1 (Strings.len (String c r)) = Ok r.
Proof.
  unfold Strings.slice. pose proof (len_nonneg r) as Hr0. rewrite len_String.
  replace ((0 <=? 1) && (1 <=? 1 + Strings.len r)
           && (1 + Strings.len r <=? 1 + Strings.len r))%Z with true
    by (symmetry; rewrite !andb_true_iff, !Z.leb_le; lia).
  replace (Z.to_nat (1 + Strings.len r - 1)) with (String.length r)
    by (unfold Strings.len; lia).
  change (Z.to_nat 1) with 1%nat. simpl substring.
  now rewrite substring_whole.
Qed.

Lemma stripPattern_returns (pattern : string) :
  exists stripped, stripPattern pattern = Ok stripped.
Proof.
  unfold stripPattern.
  destruct (Strings.HasPrefix pattern "!") eqn:Hneg.
  - apply HasPrefix_byte in Hneg as [r ->].
    rewrite slice_tail. cbn [bind].
    destruct (Strings.HasSuffix (String "!" r) "/") eqn:Hdir; [|eauto].
    assert (Hlen : (1 <= Strings.len r)%Z).
    { destruct r as [|d r']; [discriminate Hdir|].
      rewrite len_String. pose proof (len_nonneg r'). lia. }
    apply slice_in_range; lia.
  - cbn [bind].
    destruct (Strings.HasSuffix pattern "/") eqn:Hdir; [|eauto].
    apply HasSuffix_nonempty in Hdir.
    apply slice_in_range; unfold Strings.len; lia.
Qed.

Lemma compilePattern_returns (pattern : string) :
  exists p, compilePattern pattern = Ok p
            /\ original p = pattern
            /\ isNegation p = Strings.HasPrefix pattern "!"
            /\ isDir p = Strings.HasSuffix pattern "/".
Proof.
  unfold compilePattern.
  destruct (stripPattern_returns pattern) as [stripped ->]. cbn [bind].
  eexists. split; [reflexivity|]. simpl. auto.
Qed.

Lemma AddPattern_returns (pl : PatternList) (pattern : string) :
  exists p, compilePattern pattern = Ok p
            /\ AddPattern pl pattern
               = Ok {| patterns := patterns pl ++ [p]; basePath := basePath pl |}.
Proof.
  destruct (compilePattern_returns pattern) as [p [Hp _]].
  exists p. split; [exact Hp|]. unfold AddPattern. now rewrite Hp.
Qed.



(** ** The properties of the matcher *)

(** C1. Last match wins: Matches runs every rule in file order and each
    matching rule overwrites the running verdict with the negation of its
    negated flag, so that the verdict is [not negated] of the last matching
    rule and false when no rule matches.  With the rules "*.log" and
    "!keep.log", in that order, "keep.log" is not excluded and "debug.log"
    is excluded. *)
Theorem Matches_last_match_wins :
  (forall ps relPath isDirectory result,
      matchesLoop ps relPath isDirectory result =
      Ok (match lastMatching ps relPath isDirectory with
          | Some p => negb (isNegation p)
          | None => result
          end))
  /\ (forall os pl path relPath isDirectory,
         relativePath os pl path = Some relPath ->
         os_Stat os path = StatOk isDirectory ->
         Matches os pl path
         = Ok (match lastMatching (patterns pl) relPath isDirectory with
               | Some p => negb (isNegation p)
               | None => false
               end))
  /\ (forall base, exists pl,
         addPatterns (emptyList base) ["*.log"; "!keep.log"] = Ok pl
         /\ (forall os isDirectory,
                os_Stat os "keep.log" = StatOk isDirectory ->
                Matches os pl "keep.log" = Ok false)
         /\ (forall os isDirectory,
                os_Stat os "debug.log" = StatOk isDirectory ->
                Matches os pl "debug.log" = Ok true)).
Proof.
  split; [|split].
  - intros. apply matchesLoop_last.
  - intros os pl path relPath isDirectory Hrel Hstat.
    apply (Matches_verdict os pl path relPath isDirectory Hrel Hstat).
  - intros base. eexists. split; [reflexivity|].
    split; intros os isDirectory Hstat; unfold Matches; cbn;
      rewrite Hstat; now destruct isDirectory.
Qed.

Lemma Matches_last_match_wins_witness :
  let pl :=
    {| patterns :=
         [ {| original := "*.log"; segments := ["*.log"]; isNegation := false;
              isExact := false; isDir := false |};
           {| original := "!keep.log"; segments := ["keep.log"];
              isNegation := true; isExact := true; isDir := false |} ];
       basePath := "/w" |} in
  addPatterns (emptyList "/w") ["*.log"; "!keep.log"] = Ok pl
  /\ relativePath (osWith "keep.log" false) pl "keep.log" = Some "keep.log"
  /\ os_Stat (osWith "keep.log" false) "keep.log" = StatOk false
  /\ Matches (osWith "keep.log" false) pl "keep.log" = Ok false.
Proof.
  intros pl.
  split; [reflexivity|]. split; [reflexivity|]. split; [reflexivity|].
  exact (proj1 (proj2 Matches_last_match_wins)
           (osWith "keep.log" false) pl "keep.log" "keep.log" false
           eq_refl eq_refl).
Defined.

(** C2. Where matchWildcard and anchored glob matching part: a '*' inside
    a segment and a '?' anywhere are compared as ordinary bytes, although
    the regular expression built for the segment gives them their glob
    meaning.  At the ends of a segment '*' does match a run of bytes and
    does not reach over a '/': the rule "*.go" matches "main.go" and does
    not match "src/main.go". *)
Theorem matchWildcard_not_glob :
  matchWildcard "a*b" "axb" = Ok false
  /\ globMatch "a*b" "axb" = true
  /\ buildRegex "a*b" = "^a.*b$"
  /\ matchWildcard "?" "a" = Ok false
  /\ globMatch "?" "a" = true
  /\ buildRegex "?" = "^.$"
  /\ (exists p, compilePattern "a*b" = Ok p
                /\ matches p "axb" false = Ok false
                /\ matches p "a*b" false = Ok true)
  /\ (exists p, compilePattern "*.go" = Ok p
                /\ matches p "main.go" false = Ok true
                /\ matches p "src/main.go" false = Ok false).
Proof.
  repeat split; try reflexivity; eexists; repeat split; reflexivity.
Qed.

(** C3. The exact flag AddPattern computes is "no '*', or some '?'": a
    pattern with a '?' is marked exact whether or not it has a '*', and is
    then compared with the path byte for byte. *)
Theorem AddPattern_isExact_question :
  (forall pl line, exists stripped p,
      stripPattern line = Ok stripped
      /\ AddPattern pl line
         = Ok {| patterns := patterns pl ++ [p]; basePath := basePath pl |}
      /\ isExact p
         = negb (Strings.Contains (Filepath.Clean stripped) "*")
           || Strings.Contains (Filepath.Clean stripped) "?")
  /\ (exists p, compilePattern "file?.txt" = Ok p
                /\ isExact p = true
                /\ matches p "file1.txt" false = Ok false
                /\ matches p "file?.txt" false = Ok true)
  /\ (exists p, compilePattern "*?" = Ok p /\ isExact p = true).
Proof.
  split; [|split].
  - intros pl line. destruct (stripPattern_returns line) as [stripped Hs].
    exists stripped. eexists. split; [exact Hs|].
    unfold AddPattern, compilePattern. rewrite Hs. cbn [bind].
    split; reflexivity.
  - eexists. repeat split; reflexivity.
  - eexists. split; reflexivity.
Qed.

Lemma matchSegmentsB_stars_absorb (patRest : list string) :
  forall pathSegs,
    matchSegmentsB ("**" :: patRest) pathSegs = true <->
    exists k, (k <= List.length pathSegs)%nat
              /\ matchSegmentsB patRest (List.skipn k pathSegs) = true.
Proof.
  induction pathSegs as [|pathSeg pathRest IH].
  - rewrite matchSegmentsB_exhausted. cbn [forallb]. simpl (_ =? _).
    cbn [andb]. rewrite <- matchSegmentsB_exhausted. split.
    + intros H. exists 0%nat. split; [simpl; lia | exact H].
    + intros [k [_ H]]. now rewrite skipn_nil in H.
  - rewrite matchSegmentsB_stars, orb_true_iff, IH. split.
    + intros [H | [k [Hk H]]].
      * exists 0%nat. split; [lia | exact H].
      * exists (S k). split; [simpl; lia | exact H].
    + intros [[|k] [Hk H]].
      * now left.
      * right. exists k. split; [simpl in Hk; lia | exact H].
Qed.

(** C4. A "**" pattern segment takes up zero or more whole path segments:
    against a non-empty path matchSegments succeeds iff the pattern without
    the "**" matches the whole path or the pattern with it matches the path
    less its first segment; once the path is used up the pattern succeeds
    iff all its segments are "**".  The rule "**/test.txt" matches
    "test.txt", "a/test.txt" and "a/b/test.txt"; the rule "a/test.txt"
    matches "a/test.txt" and nothing else. *)
Theorem matchSegments_double_star :
  (forall patternSegs pathSegs,
      matchSegments patternSegs pathSegs
      = Ok (matchSegmentsB patternSegs pathSegs))
  /\ (forall patRest pathSeg pathRest,
         matchSegmentsB ("**" :: patRest) (pathSeg :: pathRest)
         = matchSegmentsB patRest (pathSeg :: pathRest)
           || matchSegmentsB ("**" :: patRest) pathRest)
  /\ (forall patternSegs,
         matchSegmentsB patternSegs []
         = forallb (fun seg => seg =? "**") patternSegs)
  /\ (forall patRest pathSegs,
         matchSegmentsB ("**" :: patRest) pathSegs = true <->
         exists k, (k <= List.length pathSegs)%nat
                   /\ matchSegmentsB patRest (List.skipn k pathSegs) = true)
  /\ (exists p, compilePattern "**/test.txt" = Ok p
                /\ segments p = ["**"; "test.txt"]
                /\ (forall isDirectory,
                       matches p "test.txt" isDirectory = Ok true
                       /\ matches p "a/test.txt" isDirectory = Ok true
                       /\ matches p "a/b/test.txt" isDirectory = Ok true))
  /\ (exists p, compilePattern "a/test.txt" = Ok p
                /\ forall path isDirectory,
                    matches p path isDirectory = Ok true <-> path = "a/test.txt").
Proof.
  split; [exact matchSegments_returns|].
  split; [exact matchSegmentsB_stars|].
  split; [exact matchSegmentsB_exhausted|].
  split; [exact matchSegmentsB_stars_absorb|].
  split.
  - eexists. split; [reflexivity|]. split; [reflexivity|].
    intros isDirectory. repeat split; reflexivity.
  - eexists. split; [reflexivity|].
    intros path isDirectory.
    match goal with
    | |- context [matches ?q _ _] =>
        assert (E : matches q path isDirectory = Ok ("a/test.txt" =? path))
          by reflexivity
    end.
    rewrite E. split.
    + intros H. apply Ok_inj in H. apply String.eqb_eq in H. now symmetry.
    + intros ->. reflexivity.
Qed.

(** C5. A rule whose line ends with '/' never matches an entry that is not
    a directory, whatever the path: the rule "build/" excludes the
    directory "build" and excludes no file, a file named "build"
    included. *)
Theorem matches_directory_only :
  (forall line p path,
      compilePattern line = Ok p ->
      Strings.HasSuffix line "/" = true ->
      matches p path false = Ok false)
  /\ (forall base, exists pl,
         AddPattern (emptyList base) "build/" = Ok pl
         /\ (forall os, os_Stat os "build" = StatOk true ->
                        Matches os pl "build" = Ok true)
         /\ (forall os path, os_Stat os path = StatOk false ->
                             Matches os pl path = Ok false)).
Proof.
  split.
  - intros line p path Hp Hdir.
    destruct (compilePattern_returns line) as [q [Hq [_ [_ Hd]]]].
    rewrite Hp in Hq. injection Hq as <-.
    unfold matches. now rewrite Hd, Hdir.
  - intros base. eexists. split; [reflexivity|]. split.
    + intros os Hstat. unfold Matches. cbn. now rewrite Hstat.
    + intros os path Hstat. unfold Matches. cbn [patterns List.length Nat.eqb].
      destruct (relativePath os _ path); [|reflexivity].
      now rewrite Hstat.
Qed.

Lemma matches_directory_only_witness :
  compilePattern "build/"
  = Ok {| original := "build/"; segments := ["build"]; isNegation := false;
          isExact := true; isDir := true |}
  /\ Strings.HasSuffix "build/" "/" = true
  /\ matches {| original := "build/"; segments := ["build"]; isNegation := false;
                isExact := true; isDir := true |} "build" false = Ok false.
Proof.
  split; [reflexivity|]. split; [reflexivity|].
  exact (proj1 matches_directory_only "build/" _ "build" eq_refl eq_refl).
Defined.

(** C6. Matches fails open: it always returns a boolean, with no error and
    no panic; it returns false when the absolute candidate path cannot be
    made relative to the base path, and when stat on the candidate path
    fails, a path that does not exist included. *)
Theorem Matches_fail_open (os : OS) (pl : PatternList) (path : string) :
  (exists b, Matches os pl path = Ok b)
  /\ (Filepath.IsAbs path = true ->
      filepath_Rel os (basePath pl) path = None ->
      Matches os pl path = Ok false)
  /\ (os_Stat os path = StatNotExist \/ os_Stat os path = StatError ->
      Matches os pl path = Ok false).
Proof.
  split; [apply Matches_returns|]. split.
  - intros Habs Hrel. unfold Matches, relativePath. rewrite Habs, Hrel.
    now destruct (List.length (patterns pl) =? 0)%nat.
  - intros Hstat. unfold Matches.
    destruct (List.length (patterns pl) =? 0)%nat; [reflexivity|].
    destruct (relativePath os pl path); [|reflexivity].
    now destruct Hstat as [-> | ->].
Qed.

Lemma Matches_fail_open_witness :
  let pl :=
    {| patterns :=
         [ {| original := "*.log"; segments := ["*.log"]; isNegation := false;
              isExact := false; isDir := false |} ];
       basePath := "/w" |} in
  Filepath.IsAbs "/w/gone.log" = true
  /\ filepath_Rel (osWith "x" false) (basePath pl) "/w/gone.log" = None
  /\ (os_Stat (osWith "x" false) "gone.log" = StatNotExist
      \/ os_Stat (osWith "x" false) "gone.log" = StatError)
  /\ Matches (osWith "x" false) pl "/w/gone.log" = Ok false
  /\ Matches (osWith "x" false) pl "gone.log" = Ok false.
Proof.
  intros pl.
  split; [reflexivity|]. split; [reflexivity|].
  split; [left; reflexivity|]. split.
  - exact (proj1 (proj2 (Matches_fail_open (osWith "x" false) pl "/w/gone.log"))
             eq_refl eq_refl).
  - exact (proj2 (proj2 (Matches_fail_open (osWith "x" false) pl "gone.log"))
             (or_introl eq_refl)).
Defined.

(** C7. The verdict is total and determined by its inputs: Matches always
    returns a boolean, and it returns the same one in any two states of the
    file system that give the candidate path the same relative path and the
    same directory flag; it reads the rule list and writes nothing. *)
Theorem Matches_deterministic (os1 os2 : OS) (pl : PatternList) (path : string) :
  (Filepath.IsAbs path = true ->
   filepath_Rel os1 (basePath pl) path = filepath_Rel os2 (basePath pl) path) ->
  os_Stat os1 path = os_Stat os2 path ->
  exists b, Matches os1 pl path = Ok b /\ Matches os2 pl path = Ok b.
Proof.
  intros Hrel Hstat.
  destruct (Matches_returns os1 pl path) as [b Hb].
  exists b. split; [exact Hb|]. rewrite <- Hb.
  unfold Matches, relativePath. rewrite Hstat.
  destruct (Filepath.IsAbs path); [|reflexivity].
  now rewrite Hrel.
Qed.

Lemma Matches_deterministic_witness :
  let pl :=
    {| patterns :=
         [ {| original := "*.log"; segments := ["*.log"]; isNegation := false;
              isExact := false; isDir := false |} ];
       basePath := "/w" |} in
  let os1 := osWith "debug.log" false in
  let os2 :=
    {| os_Stat := fun _ => StatOk false;
       os_WriteFile := fun _ => false;
       os_Open := fun _ => Opened [] false;
       filepath_Rel := fun _ target => Some target |} in
  exists b, Matches os1 pl "debug.log" = Ok b /\ Matches os2 pl "debug.log" = Ok b.
Proof.
  intros pl os1 os2.
  apply (Matches_deterministic os1 os2 pl "debug.log").
  - simpl. discriminate.
  - reflexivity.
Defined.

(** C9. For a pattern segment that neither begins nor ends with '*' (the
    segment "*" is therefore left out; segments with a '?' or with a '*'
    inside are in), matchWildcard returns true iff the path segment is the
    same string as the pattern segment, wildcard bytes included; the
    regular expression it has built has no part in the result. *)
Theorem matchWildcard_literal (pattern path : string) :
  Strings.HasPrefix pattern "*" = false ->
  Strings.HasSuffix pattern "*" = false ->
  matchWildcard pattern path = Ok (pattern =? path)
  /\ (matchWildcard pattern path = Ok true <-> path = pattern)
  /\ (forall regex,
         matchWildcardWith regex pattern path = matchWildcard pattern path).
Proof.
  intros Hpre Hsuf.
  assert (Hstar : (pattern =? "*") = false).
  { destruct (String.eqb_spec pattern "*") as [-> |]; [discriminate Hpre | reflexivity]. }
  assert (E : forall regex, matchWildcardWith regex pattern path
                            = Ok (pattern =? path)).
  { intros regex. unfold matchWildcardWith. now rewrite Hstar, Hpre, Hsuf. }
  split; [unfold matchWildcard; apply E|]. split.
  - unfold matchWildcard. rewrite E. split.
    + intros H. apply Ok_inj in H. apply String.eqb_eq in H. now symmetry.
    + intros ->. now rewrite String.eqb_refl.
  - intros regex. unfold matchWildcard. now rewrite !E.
Qed.

Lemma matchWildcard_literal_witness :
  Strings.HasPrefix "a*b" "*" = false
  /\ Strings.HasSuffix "a*b" "*" = false
  /\ matchWildcard "a*b" "axb" = Ok false
  /\ matchWildcard "a?c" "abc" = Ok false
  /\ matchWildcard "a?c" "a?c" = Ok true.
Proof.
  split; [reflexivity|]. split; [reflexivity|]. split; [|split].
  - exact (proj1 (matchWildcard_literal "a*b" "axb" eq_refl eq_refl)).
  - exact (proj1 (matchWildcard_literal "a?c" "abc" eq_refl eq_refl)).
  - exact (proj1 (matchWildcard_literal "a?c" "a?c" eq_refl eq_refl)).
Defined.

(** C10. matchSegments terminates on all finite lists of segments: each
    recursive call is on lists whose lengths add up to strictly less, the
    calls are therefore well founded, and the function returns a boolean
    for every pattern and path. *)
Theorem matchSegments_terminates :
  (forall patternSegs pathSegs patternSegs' pathSegs',
      matchSegmentsCall (patternSegs, pathSegs) (patternSegs', pathSegs') ->
      (segmentsMeasure patternSegs' pathSegs'
       < segmentsMeasure patternSegs pathSegs)%nat)
  /\ well_founded (fun callee caller => matchSegmentsCall caller callee)
  /\ (forall patternSegs pathSegs,
         exists b, matchSegments patternSegs pathSegs = Ok b)
  /\ (forall fuel patternSegs pathSegs,
         (segmentsMeasure patternSegs pathSegs < fuel)%nat ->
         matchSegmentsFuel fuel patternSegs pathSegs
         = matchSegments patternSegs pathSegs).
Proof.
  assert (Hdec : forall caller callee,
             matchSegmentsCall caller callee ->
             (segmentsMeasure (fst callee) (snd callee)
              < segmentsMeasure (fst caller) (snd caller))%nat).
  { intros caller callee H. destruct H; unfold segmentsMeasure; simpl; lia. }
  split; [|split; [|split]].
  - intros pat path pat' path' H. exact (Hdec _ _ H).
  - apply (well_founded_lt_compat _
             (fun a => segmentsMeasure (fst a) (snd a))).
    intros callee caller H. exact (Hdec _ _ H).
  - intros pat path. rewrite matchSegments_returns. eauto.
  - intros fuel pat path Hlt.
    now rewrite matchSegmentsFuel_enough, matchSegments_returns.
Qed.

Lemma matchSegments_terminates_witness :
  matchSegmentsCall (["**"; "test.txt"], ["a"; "test.txt"])
                    (["**"; "test.txt"], ["test.txt"])
  /\ (segmentsMeasure ["**"; "test.txt"] ["test.txt"]
      < segmentsMeasure ["**"; "test.txt"] ["a"; "test.txt"])%nat
  /\ matchSegmentsFuel 5 ["**"; "test.txt"] ["a"; "test.txt"]
     = matchSegments ["**"; "test.txt"] ["a"; "test.txt"].
Proof.
  split; [constructor|]. split.
  - apply (proj1 matchSegments_terminates). constructor.
  - apply (proj2 (proj2 (proj2 matchSegments_terminates))).
    unfold segmentsMeasure. simpl. lia.
Defined.

(** * Further properties of the matcher, the walker and the writer *)

Lemma HasPrefix_cons (b a : ascii) (s p : string) :
  Strings.HasPrefix (String b s) (String a p) = Ascii.eqb b a && Strings.HasPrefix s p.
Proof.
  unfold Strings.HasPrefix. simpl.
  destruct (Ascii.eqb b a); [reflexivity|]. now rewrite andb_false_r.
Qed.

Lemma HasPrefix_empty (s : string) : Strings.HasPrefix s "" = true.
Proof. unfold Strings.HasPrefix. simpl. now rewrite substring_0_0. Qed.

Lemma HasPrefix_of_empty (a : ascii) (p : string) :
  Strings.HasPrefix "" (String a p) = false.
Proof. reflexivity. Qed.

Lemma HasPrefix_iff (p : string) :
  forall s, Strings.HasPrefix s p = true <-> exists r, s = p ++ r.
Proof.
  induction p as [|a p IH]; intros s.
  - rewrite HasPrefix_empty. split; [intros _; now exists s | reflexivity].
  - destruct s as [|b s].
    + rewrite HasPrefix_of_empty. split; [discriminate | intros [r H]; discriminate H].
    + rewrite HasPrefix_cons, andb_true_iff, IH. split.
      * intros [Hab [r ->]]. apply Ascii.eqb_eq in Hab as ->. now exists r.
      * intros [r H]. simpl in H. injection H as -> ->.
        split; [apply Ascii.eqb_refl | now exists r].
Qed.

Lemma length_append (a b : string) :
  String.length (a ++ b) = (String.length a + String.length b)%nat.
Proof. induction a as [|c a IH]; simpl; [reflexivity | now rewrite IH]. Qed.

Lemma substring_skip (r p : string) (n : nat) :
  substring (String.length r) n (r ++ p) = substring 0 n p.
Proof. induction r as [|c r IH]; simpl; [reflexivity | exact IH]. Qed.

Lemma substring_split (s : string) :
  forall n, (n <= String.length s)%nat ->
            s = substring 0 n s ++ substring n (String.length s - n) s.
Proof.
  induction s as [|c s IH]; intros n Hn.
  - simpl in Hn. now replace n with 0%nat by lia.
  - destruct n as [|n].
    + simpl. now rewrite substring_whole.
    + simpl in *. f_equal. apply IH. lia.
Qed.

Lemma HasSuffix_iff (s p : string) :
  Strings.HasSuffix s p = true <-> exists r, s = r ++ p.
Proof.
  unfold Strings.HasSuffix. rewrite andb_true_iff, Nat.leb_le, String.eqb_eq. split.
  - intros [Hlen Hsub].
    exists (substring 0 (String.length s - String.length p) s).
    rewrite (substring_split s (String.length s - String.length p)) at 1 by lia.
    f_equal. rewrite <- Hsub at 3. f_equal. lia.
  - intros [r ->]. rewrite length_append. split; [lia|].
    replace (String.length r + String.length p - String.length p)%nat
      with (String.length r) by lia.
    now rewrite substring_skip, substring_whole.
Qed.

Lemma Contains_iff (p : string) :
  forall s, Strings.Contains s p = true <-> exists a b, s = a ++ p ++ b.
Proof.
  induction s as [|c s IH].
  - simpl. rewrite orb_false_r, HasPrefix_iff. split.
    + intros [r H]. now exists "", r.
    + intros [a [b H]]. destruct a; [now exists b | discriminate H].
  - cbn [Strings.Contains]. rewrite orb_true_iff, HasPrefix_iff, IH. split.
    + intros [[r H] | [a [b H]]].
      * now exists "", r.
      * exists (String c a), b. simpl. now rewrite H.
    + intros [[|d a] [b H]].
      * left. now exists b.
      * right. simpl in H. injection H as -> ->. now exists a, b.
Qed.

Lemma Split_nonempty (s : string) (sep : ascii) : Strings.Split s sep <> [].
Proof.
  destruct s as [|c s]; simpl; [discriminate|].
  destruct (Ascii.eqb c sep); [discriminate|].
  destruct (Strings.Split s sep); discriminate.
Qed.

Lemma concat_cons (sep x : string) (xs : list string) :
  xs <> [] -> String.concat sep (x :: xs) = x ++ sep ++ String.concat sep xs.
Proof. destruct xs; [contradiction | reflexivity]. Qed.

Lemma Join_Split (s : string) : Strings.Join (Strings.Split s "/") "/" = s.
Proof.
  unfold Strings.Join. induction s as [|c s IH]; [reflexivity|].
  cbn [Strings.Split]. pose proof (Split_nonempty s "/") as Hne.
  destruct (Ascii.eqb c "/") eqn:Hc.
  - apply Ascii.eqb_eq in Hc as ->.
    rewrite concat_cons by exact Hne. now rewrite IH.
  - destruct (Strings.Split s "/") as [|h t]; [contradiction|].
    destruct t as [|h' t].
    + simpl in *. now rewrite IH.
    + rewrite concat_cons by discriminate.
      rewrite concat_cons in IH by discriminate.
      rewrite <- IH. reflexivity.
Qed.


Lemma replace_stars_hit (s : string) :
  Strings.replaceFrom 0 (String "*" (String "*" s)) "**" NUL
  = NUL ++ Strings.replaceFrom 0 s "**" NUL.
Proof.
  cbn [Strings.replaceFrom]. rewrite !HasPrefix_cons, HasPrefix_empty. reflexivity.
Qed.

Lemma replace_miss (c : ascii) (s old new : string) :
  Strings.HasPrefix (String c s) old = false ->
  Strings.replaceFrom 0 (String c s) old new
  = String c (Strings.replaceFrom 0 s old new).
Proof. intros H. cbn [Strings.replaceFrom]. now rewrite H. Qed.

Lemma restore_hit (s : string) :
  Strings.replaceFrom 0 (String NULc s) NUL "**"
  = "**" ++ Strings.replaceFrom 0 s NUL "**".
Proof.
  cbn [Strings.replaceFrom]. unfold NUL. rewrite HasPrefix_cons, HasPrefix_empty.
  reflexivity.
Qed.

Lemma restore_miss (c : ascii) (s : string) :
  Ascii.eqb c NULc = false ->
  Strings.replaceFrom 0 (String c s) NUL "**"
  = String c (Strings.replaceFrom 0 s NUL "**").
Proof.
  intros H. apply replace_miss. unfold NUL. rewrite HasPrefix_cons.
  fold NULc. now rewrite H.
Qed.

Lemma Split_cons_sep (s : string) (sep : ascii) :
  Strings.Split (String sep s) sep = "" :: Strings.Split s sep.
Proof. cbn [Strings.Split]. now rewrite Ascii.eqb_refl. Qed.

Lemma Split_cons_other (c : ascii) (s : string) (sep : ascii) :
  Ascii.eqb c sep = false ->
  exists h t, Strings.Split s sep = h :: t
              /\ Strings.Split (String c s) sep = String c h :: t.
Proof.
  intros H. cbn [Strings.Split]. rewrite H.
  destruct (Strings.Split s sep) as [|h t] eqn:Hs.
  - now destruct (Split_nonempty s sep).
  - now exists h, t.
Qed.

Lemma restore_cons (c : ascii) (s : string) :
  Strings.replaceFrom 0 (String c s) NUL "**"
  = (if Ascii.eqb c NULc then "**" else String c "")
      ++ Strings.replaceFrom 0 s NUL "**".
Proof.
  destruct (Ascii.eqb c NULc) eqn:Hc.
  - apply Ascii.eqb_eq in Hc as ->. apply restore_hit.
  - now rewrite restore_miss.
Qed.

Lemma Split_prepend (pre s : string) (sep : ascii) :
  Strings.ContainsByte pre sep = false ->
  exists h t, Strings.Split s sep = h :: t
              /\ Strings.Split (pre ++ s) sep = (pre ++ h) :: t.
Proof.
  induction pre as [|c pre IH]; intros Hpre.
  - pose proof (Split_nonempty s sep) as Hne.
    destruct (Strings.Split s sep) as [|h t] eqn:E; [contradiction|].
    now exists h, t.
  - cbn [Strings.ContainsByte] in Hpre. apply orb_false_iff in Hpre as [Hc Hpre].
    destruct (IH Hpre) as [h [t [E1 E2]]]. exists h, t. split; [exact E1|].
    cbn [append]. destruct (Split_cons_other c (pre ++ s) sep Hc) as [h' [t' [E3 ->]]].
    rewrite E2 in E3. now injection E3 as <- <-.
Qed.

(** splitPattern is the split at '/' of the pattern with each zero byte
    read as "**". *)
Lemma splitPattern_Split_bounded (n : nat) :
  forall s, (String.length s <= n)%nat ->
            splitPattern s
            = Strings.Split (Strings.ReplaceAll s NUL "**") "/".
Proof.
  unfold splitPattern, Strings.ReplaceAll, Filepath.ToSlash.
  induction n as [|n IH]; intros s Hlen.
  - destruct s; [reflexivity | simpl in Hlen; lia].
  - destruct s as [|c s]; [reflexivity|].
    destruct (Strings.HasPrefix (String c s) "**") eqn:Hpre.
    + apply HasPrefix_iff in Hpre as [r Hr]. simpl in Hr. injection Hr as -> ->.
      rewrite replace_stars_hit.
      specialize (IH r ltac:(simpl in Hlen; lia)).
      rewrite (restore_miss "*" (String "*" r) eq_refl).
      rewrite (restore_miss "*" r eq_refl).
      change (NUL ++ Strings.replaceFrom 0 r "**" NUL)
        with (String NULc (Strings.replaceFrom 0 r "**" NUL)).
      destruct (Split_cons_other NULc (Strings.replaceFrom 0 r "**" NUL) "/" eq_refl)
        as [h0 [t0 [E0 ->]]].
      destruct (Split_prepend "**" (Strings.replaceFrom 0 r NUL "**") "/" eq_refl)
        as [h [t [E E']]].
      change (String "*" (String "*" (Strings.replaceFrom 0 r NUL "**")))
        with ("**" ++ Strings.replaceFrom 0 r NUL "**").
      rewrite E'. rewrite E0, E in IH. cbn [List.map] in *.
      injection IH as <- <-. now rewrite restore_hit.
    + rewrite (replace_miss _ _ _ _ Hpre).
      specialize (IH s ltac:(simpl in Hlen; lia)).
      destruct (Ascii.eqb c "/") eqn:Hsep.
      * apply Ascii.eqb_eq in Hsep as ->.
        rewrite (restore_miss "/" s eq_refl).
        rewrite !Split_cons_sep. cbn [List.map]. now rewrite IH.
      * destruct (Split_cons_other c (Strings.replaceFrom 0 s "**" NUL) "/" Hsep)
          as [h0 [t0 [E0 ->]]].
        cbn [List.map]. rewrite !restore_cons.
        rewrite E0 in IH. cbn [List.map] in IH.
        destruct (Ascii.eqb c NULc) eqn:Hnul.
        -- destruct (Split_prepend "**" (Strings.replaceFrom 0 s NUL "**") "/" eq_refl)
             as [h [t [E E']]].
           rewrite E'. rewrite E in IH. now injection IH as <- <-.
        -- change (String c "" ++ Strings.replaceFrom 0 s NUL "**")
             with (String c (Strings.replaceFrom 0 s NUL "**")).
           destruct (Split_cons_other c (Strings.replaceFrom 0 s NUL "**") "/" Hsep)
             as [h [t [E ->]]].
           rewrite E in IH. now injection IH as <- <-.
Qed.

Lemma splitPattern_reads_NUL_as_stars (s : string) :
  splitPattern s = Strings.Split (Strings.ReplaceAll s NUL "**") "/".
Proof. apply (splitPattern_Split_bounded (String.length s)). lia. Qed.

Lemma restore_without_NUL (s : string) :
  Strings.ContainsByte s NULc = false -> Strings.ReplaceAll s NUL "**" = s.
Proof.
  unfold Strings.ReplaceAll. induction s as [|c s IH]; [reflexivity|].
  cbn [Strings.ContainsByte]. intros H. apply orb_false_iff in H as [Hc Hs].
  rewrite restore_miss by exact Hc. now rewrite IH.
Qed.

Lemma splitPattern_Split (s : string) :
  Strings.ContainsByte s NULc = false -> splitPattern s = Strings.Split s "/".
Proof.
  intros H. now rewrite splitPattern_reads_NUL_as_stars, restore_without_NUL.
Qed.

Section CleanBytes.

Variable P : ascii -> Prop.
Hypothesis P_dot : P "."%char.
Hypothesis P_sep : P "/"%char.

Lemma backtrackLoop_bytes (dotdot : nat) (out : list ascii) :
  forall atw, Forall P out -> Forall P (Filepath.backtrackLoop dotdot atw out).
Proof.
  induction out as [|c out IH]; intros atw H; cbn [Filepath.backtrackLoop].
  - now destruct (_ && _).
  - destruct (_ && _); [|exact H].
    apply IH. now inversion H.
Qed.

Lemma backtrack_bytes (dotdot : nat) (out : list ascii) :
  Forall P out -> Forall P (Filepath.backtrack dotdot out).
Proof.
  destruct out as [|c out]; intros H; [exact H|].
  apply backtrackLoop_bytes. now inversion H.
Qed.

Lemma cleanLoop_bytes (n : nat) :
  forall path rooted copying out dotdot,
    (List.length path <= n)%nat ->
    Forall P path -> Forall P out ->
    Forall P (Filepath.cleanLoop rooted copying path out dotdot).
Proof.
  induction n as [|n IH]; intros path rooted copying out dotdot Hlen Hpath Hout.
  - destruct path; [exact Hout | simpl in Hlen; lia].
  - destruct path as [|c rest]; [exact Hout|].
    inversion Hpath as [|? ? Hc Hrest]; subst.
    assert (Hn : (List.length rest <= n)%nat) by (simpl in Hlen; lia).
    assert (Hsep : forall o, Forall P o -> Forall P (Filepath.Separator :: o))
      by (intros o Ho; now constructor).
    assert (Hout1 : forall b : bool,
               Forall P (if b then Filepath.Separator :: out else out))
      by (intros [|]; auto).
    cbn [Filepath.cleanLoop].
    destruct (Filepath.IsPathSeparator c); [now apply IH|].
    destruct copying; [apply IH; auto|].
    destruct rest as [|d rest2].
    + cbn [andb]. destruct (Ascii.eqb c "."); cbn [andb]; apply IH; auto.
    + inversion Hrest as [|? ? Hd Hrest2]; subst.
      assert (Hn2 : (List.length rest2 <= n)%nat) by (simpl in Hn; lia).
      destruct (Ascii.eqb c "." && Filepath.IsPathSeparator d); [now apply IH|].
      destruct (Ascii.eqb c "." && Ascii.eqb d "."
                && match rest2 with [] => true | e :: _ => Filepath.IsPathSeparator e end).
      * destruct (dotdot <? List.length out)%nat.
        -- apply IH; auto. now apply backtrack_bytes.
        -- destruct (negb rooted); apply IH; auto.
      * apply IH; auto.
Qed.

Lemma Clean_bytes (s : string) :
  Forall P (list_ascii_of_string s) ->
  Forall P (list_ascii_of_string (Filepath.Clean s)).
Proof.
  intros H. unfold Filepath.Clean.
  destruct (list_ascii_of_string s) as [|c rest]; [simpl; auto|].
  inversion H as [|? ? Hc Hrest]; subst.
  match goal with
  | |- context [match ?o with [] => _ | _ :: _ => _ end] =>
      assert (Ho : Forall P o)
  end.
  { destruct (Filepath.IsPathSeparator c).
    - apply (cleanLoop_bytes (List.length rest)); auto.
    - apply (cleanLoop_bytes (List.length (c :: rest))); auto. }
  match goal with
  | |- context [match ?o with [] => _ | _ :: _ => _ end] =>
      destruct o as [|x o'] eqn:E
  end.
  - simpl; auto.
  - rewrite list_ascii_of_string_of_list_ascii. apply Forall_rev. exact Ho.
Qed.

End CleanBytes.

Lemma ContainsByte_Forall (b : ascii) (s : string) :
  Strings.ContainsByte s b = false <->
  Forall (fun c => c <> b) (list_ascii_of_string s).
Proof.
  induction s as [|c s IH]; simpl.
  - split; auto.
  - rewrite orb_false_iff, IH, Ascii.eqb_neq. split.
    + intros [H1 H2]. now constructor.
    + intros H. now inversion H.
Qed.

Lemma Clean_free_of (b : ascii) (s : string) :
  b <> "."%char -> b <> "/"%char ->
  Strings.ContainsByte s b = false ->
  Strings.ContainsByte (Filepath.Clean s) b = false.
Proof.
  intros Hdot Hsep. rewrite !ContainsByte_Forall.
  apply Clean_bytes; congruence.
Qed.

Lemma substring_free_of (b : ascii) (s : string) :
  forall n m, Strings.ContainsByte s b = false ->
              Strings.ContainsByte (substring n m s) b = false.
Proof.
  induction s as [|c s IH]; intros n m H.
  - now destruct n, m.
  - cbn [Strings.ContainsByte] in H. apply orb_false_iff in H as [Hc Hs].
    destruct n as [|n]; [destruct m as [|m]|]; simpl; auto.
    now rewrite Hc, IH.
Qed.

Lemma slice_free_of (b : ascii) (s t : string) (lo hi : Z) :
  Strings.slice s lo hi = Ok t ->
  Strings.ContainsByte s b = false -> Strings.ContainsByte t b = false.
Proof.
  unfold Strings.slice. destruct (_ && _); [|discriminate].
  intros H. apply Ok_inj in H as <-. apply substring_free_of.
Qed.

Lemma stripPattern_free_of (b : ascii) (line stripped : string) :
  stripPattern line = Ok stripped ->
  Strings.ContainsByte line b = false ->
  Strings.ContainsByte stripped b = false.
Proof.
  unfold stripPattern. intros H Hb.
  destruct (Strings.HasPrefix line "!").
  - destruct (Strings.slice line 1 (Strings.len line)) as [t| | |] eqn:Ht;
      try discriminate.
    cbn [bind] in H. pose proof (slice_free_of b _ _ _ _ Ht Hb) as Hbt.
    destruct (Strings.HasSuffix line "/").
    + exact (slice_free_of b _ _ _ _ H Hbt).
    + apply Ok_inj in H. now subst.
  - cbn [bind] in H. destruct (Strings.HasSuffix line "/").
    + exact (slice_free_of b _ _ _ _ H Hb).
    + apply Ok_inj in H. now subst.
Qed.

Lemma NULc_not_dot : NULc <> "."%char. Proof. discriminate. Qed.
Lemma NULc_not_sep : NULc <> "/"%char. Proof. discriminate. Qed.

(** X1. splitPattern is the split at '/' of the pattern with every zero byte
    read as "**"; for a pattern without a zero byte it is the plain split
    at '/', and joining the segments with '/' gives the pattern back. *)
Theorem splitPattern_plain_split (pattern : string) :
  splitPattern pattern
  = Strings.Split (Strings.ReplaceAll pattern NUL "**") "/"
  /\ (Strings.ContainsByte pattern NULc = false ->
      splitPattern pattern = Strings.Split pattern "/"
      /\ Strings.Join (splitPattern pattern) "/" = pattern).
Proof.
  split; [apply splitPattern_reads_NUL_as_stars|].
  intros H. rewrite (splitPattern_Split pattern H). split; [reflexivity|].
  apply Join_Split.
Qed.

Lemma compilePattern_inv (line : string) (p : Pattern) :
  compilePattern line = Ok p ->
  exists stripped,
    stripPattern line = Ok stripped
    /\ p = {| original := line;
              segments := splitPattern (Filepath.Clean stripped);
              isNegation := Strings.HasPrefix line "!";
              isExact := negb (Strings.Contains (Filepath.Clean stripped) "*")
                         || Strings.Contains (Filepath.Clean stripped) "?";
              isDir := Strings.HasSuffix line "/" |}.
Proof.
  unfold compilePattern. destruct (stripPattern_returns line) as [stripped ->].
  cbn [bind]. intros H. apply Ok_inj in H. exists stripped. now split.
Qed.

(** X2. A rule compiled as exact from a line without a zero byte matches a
    path iff the path is the cleaned text of the line (without its '!' and
    its trailing '/') and, for a directory-only rule, the entry is a
    directory. *)
Theorem exact_rule_matches_cleaned_text
        (line stripped : string) (p : Pattern) (path : string) (isDirectory : bool) :
  Strings.ContainsByte line NULc = false ->
  stripPattern line = Ok stripped ->
  compilePattern line = Ok p ->
  isExact p = true ->
  (matches p path isDirectory = Ok true <->
   (isDir p = false \/ isDirectory = true) /\ path = Filepath.Clean stripped).
Proof.
  intros Hnul Hstrip Hp Hexact.
  destruct (compilePattern_inv line p Hp) as [stripped' [Hs' Hrec]].
  rewrite Hstrip in Hs'. apply Ok_inj in Hs' as <-.
  assert (Hseg : Strings.Join (segments p) "/" = Filepath.Clean stripped).
  { rewrite Hrec. cbn [segments].
    rewrite splitPattern_Split; [apply Join_Split|].
    apply Clean_free_of; [exact NULc_not_dot | exact NULc_not_sep |].
    exact (stripPattern_free_of NULc line stripped Hstrip Hnul). }
  unfold matches. rewrite Hexact, Hseg.
  destruct (isDir p); destruct isDirectory; cbn [andb negb]; split.
  - intros H. apply Ok_inj, String.eqb_eq in H. split; [now right | now symmetry].
  - intros [_ ->]. now rewrite String.eqb_refl.
  - intros H. discriminate H.
  - intros [[H | H] _]; discriminate H.
  - intros H. apply Ok_inj, String.eqb_eq in H. split; [now left | now symmetry].
  - intros [_ ->]. now rewrite String.eqb_refl.
  - intros H. apply Ok_inj, String.eqb_eq in H. split; [now left | now symmetry].
  - intros [_ ->]. now rewrite String.eqb_refl.
Qed.

Lemma matchSegmentsB_same_length (patternSegs : list string) :
  forall pathSegs,
    (forall seg, In seg patternSegs -> (seg =? "**") = false) ->
    matchSegmentsB patternSegs pathSegs = true ->
    List.length pathSegs = List.length patternSegs.
Proof.
  induction patternSegs as [|patSeg patRest IH]; intros pathSegs Hno H.
  - rewrite matchSegmentsB_nil in H. apply Nat.eqb_eq in H. exact H.
  - assert (Hseg : (patSeg =? "**") = false) by (apply Hno; now left).
    destruct pathSegs as [|pathSeg pathRest].
    + rewrite matchSegmentsB_exhausted in H. cbn [forallb] in H.
      rewrite Hseg in H. discriminate H.
    + rewrite (matchSegmentsB_segment _ _ _ _ Hseg) in H.
      apply andb_prop in H as [_ H]. simpl. f_equal.
      apply IH; [|exact H]. intros seg Hin. apply Hno. now right.
Qed.

Lemma Split_single (s : string) (sep : ascii) :
  List.length (Strings.Split s sep) = 1%nat -> Strings.ContainsByte s sep = false.
Proof.
  induction s as [|c s IH]; [reflexivity|].
  cbn [Strings.Split Strings.ContainsByte]. intros H.
  pose proof (Split_nonempty s sep) as Hne.
  destruct (Ascii.eqb c sep) eqn:Hc.
  - destruct (Strings.Split s sep); [contradiction | simpl in H; lia].
  - cbn [orb]. apply IH.
    destruct (Strings.Split s sep); [contradiction | exact H].
Qed.

Lemma matches_wildcard_rule (p : Pattern) (path : string) (isDirectory : bool) :
  isExact p = false ->
  matches p path isDirectory
  = Ok (negb (isDir p && negb isDirectory)
        && matchSegmentsB (segments p) (Strings.Split path "/")).
Proof.
  intros Hex. unfold matches. rewrite Hex.
  destruct (isDir p && negb isDirectory); [reflexivity|].
  now rewrite matchSegments_returns.
Qed.

(** X3. A wildcard rule with no "**" segment matches only paths with exactly
    as many segments as the rule has; a rule of one segment, such as
    "*.log", therefore matches no path that contains a '/'. *)
Theorem rule_without_stars_fixes_depth
        (p : Pattern) (path : string) (isDirectory : bool) :
  isExact p = false ->
  (forall seg, In seg (segments p) -> seg <> "**") ->
  matches p path isDirectory = Ok true ->
  List.length (Strings.Split path "/") = List.length (segments p)
  /\ (List.length (segments p) = 1%nat -> Strings.ContainsByte path "/" = false).
Proof.
  intros Hex Hno H. rewrite (matches_wildcard_rule _ _ _ Hex) in H.
  apply Ok_inj, andb_prop in H as [_ H].
  assert (Hlen : List.length (Strings.Split path "/") = List.length (segments p)).
  { apply matchSegmentsB_same_length; [|exact H].
    intros seg Hin. apply String.eqb_neq. now apply Hno. }
  split; [exact Hlen|]. intros H1. apply Split_single. now rewrite Hlen.
Qed.

Lemma matchSegmentsB_all_stars (patRest : list string) :
  forallb (fun seg => seg =? "**") patRest = true ->
  forall pathSegs, matchSegmentsB ("**" :: patRest) pathSegs = true.
Proof.
  intros Hall. induction pathSegs as [|pathSeg pathRest IH].
  - rewrite matchSegmentsB_exhausted. cbn [forallb]. now rewrite Hall.
  - rewrite matchSegmentsB_stars, IH. apply orb_true_r.
Qed.

(** X4. A wildcard rule all of whose segments are "**" matches every path;
    only the directory-only gate can stop it. *)
Theorem rule_of_double_stars_matches_all
        (p : Pattern) (path : string) (isDirectory : bool) :
  isExact p = false ->
  segments p <> [] ->
  forallb (fun seg => seg =? "**") (segments p) = true ->
  matches p path isDirectory = Ok (negb (isDir p && negb isDirectory)).
Proof.
  intros Hex Hne Hall. rewrite (matches_wildcard_rule _ _ _ Hex).
  destruct (segments p) as [|seg rest]; [contradiction|].
  cbn [forallb] in Hall. apply andb_prop in Hall as [Hseg Hrest].
  apply String.eqb_eq in Hseg as ->.
  now rewrite matchSegmentsB_all_stars, andb_true_r.
Qed.

Lemma matchSegmentsB_stars_prepend (patRest pre : list string) :
  forall pathSegs,
    matchSegmentsB ("**" :: patRest) pathSegs = true ->
    matchSegmentsB ("**" :: patRest) (pre ++ pathSegs)%list = true.
Proof.
  induction pre as [|seg pre IH]; intros pathSegs H; [exact H|].
  cbn [List.app]. rewrite matchSegmentsB_stars, (IH _ H). apply orb_true_r.
Qed.

Lemma Split_app (a b : string) (sep : ascii) :
  Strings.Split (a ++ String sep b) sep
  = (Strings.Split a sep ++ Strings.Split b sep)%list.
Proof.
  induction a as [|c a IH].
  - cbn [append Strings.Split]. now rewrite Ascii.eqb_refl.
  - cbn [append Strings.Split]. rewrite IH.
    destruct (Ascii.eqb c sep); [reflexivity|].
    pose proof (Split_nonempty a sep).
    destruct (Strings.Split a sep); [contradiction | reflexivity].
Qed.

(** X5. A wildcard rule whose first segment is "**" and that matches a path
    also matches that path below any directory prefix. *)
Theorem leading_double_star_any_directory
        (p : Pattern) (patRest : list string) (dir path : string)
        (isDirectory : bool) :
  isExact p = false ->
  segments p = "**" :: patRest ->
  matches p path isDirectory = Ok true ->
  matches p (dir ++ "/" ++ path) isDirectory = Ok true.
Proof.
  intros Hex Hseg H. rewrite (matches_wildcard_rule p path _ Hex) in H.
  rewrite (matches_wildcard_rule p (dir ++ "/" ++ path) _ Hex).
  apply Ok_inj, andb_prop in H as [Hgate H]. rewrite Hgate. cbn [andb].
  rewrite Hseg in *. f_equal.
  change (dir ++ "/" ++ path) with (dir ++ String "/" path).
  rewrite Split_app. now apply matchSegmentsB_stars_prepend.
Qed.

Lemma substring_app_prefix (p r : string) :
  substring 0 (String.length p) (p ++ r) = p.
Proof. induction p as [|c p IH]; simpl; [apply substring_0_0 | now rewrite IH]. Qed.

(** [s[:len(s)-1]] drops the last byte. *)
Lemma slice_init (p : string) (c : ascii) :
  Strings.slice (p ++ String c "") 0 (Strings.len (p ++ String c "") - 1) = Ok p.
Proof.
  unfold Strings.slice, Strings.len. rewrite length_append. simpl String.length.
  replace ((0 <=? 0) && (0 <=? Z.of_nat (String.length p + 1) - 1)
           && (Z.of_nat (String.length p + 1) - 1
               <=? Z.of_nat (String.length p + 1)))%Z with true
    by (symmetry; rewrite !andb_true_iff, !Z.leb_le; lia).
  change (Z.to_nat 0) with 0%nat.
  replace (Z.to_nat (Z.of_nat (String.length p + 1) - 1 - 0))
    with (String.length p) by lia.
  now rewrite substring_app_prefix.
Qed.

(** [s[1:len(s)-1]] drops the first and the last byte. *)
Lemma slice_middle (a : ascii) (p : string) (c : ascii) :
  Strings.slice (String a (p ++ String c "")) 1
                (Strings.len (String a (p ++ String c "")) - 1) = Ok p.
Proof.
  unfold Strings.slice, Strings.len. simpl String.length. rewrite length_append.
  simpl String.length.
  replace ((0 <=? 1) && (1 <=? Z.of_nat (S (String.length p + 1)) - 1)
           && (Z.of_nat (S (String.length p + 1)) - 1
               <=? Z.of_nat (S (String.length p + 1))))%Z with true
    by (symmetry; rewrite !andb_true_iff, !Z.leb_le; lia).
  change (Z.to_nat 1) with 1%nat.
  replace (Z.to_nat (Z.of_nat (S (String.length p + 1)) - 1 - 1))
    with (String.length p) by lia.
  simpl substring. now rewrite substring_app_prefix.
Qed.

Lemma eqb_star_long (a : ascii) (p : string) (c : ascii) :
  (String a (p ++ String c "") =? "*") = false.
Proof. apply String.eqb_neq. destruct p; discriminate. Qed.

Lemma HasSuffix_snoc (p : string) (c : ascii) :
  Strings.HasSuffix (p ++ String c "") (String c "") = true.
Proof. apply HasSuffix_iff. now exists p. Qed.

(** X6. The three '*' shapes matchWildcard handles: "*m*" matches the segments
    that contain m, "*s" the segments that end with s, and "p*" the
    segments that begin with p, the rest of the pattern being taken byte
    for byte. *)
Theorem matchWildcard_star_shapes (path : string) :
  (forall middle,
      matchWildcard ("*" ++ middle ++ "*") path = Ok (Strings.Contains path middle)
      /\ (matchWildcard ("*" ++ middle ++ "*") path = Ok true <->
          exists before after, path = before ++ middle ++ after))
  /\ (forall suffix,
         Strings.HasSuffix suffix "*" = false ->
         suffix <> "" ->
         matchWildcard ("*" ++ suffix) path = Ok (Strings.HasSuffix path suffix)
         /\ (matchWildcard ("*" ++ suffix) path = Ok true <->
             exists before, path = before ++ suffix))
  /\ (forall prefix,
         Strings.HasPrefix prefix "*" = false ->
         prefix <> "" ->
         matchWildcard (prefix ++ "*") path = Ok (Strings.HasPrefix path prefix)
         /\ (matchWildcard (prefix ++ "*") path = Ok true <->
             exists after, path = prefix ++ after)).
Proof.
  split; [|split].
  - intros middle.
    assert (E : matchWildcard ("*" ++ middle ++ "*") path
                = Ok (Strings.Contains path middle)).
    { unfold matchWildcard, matchWildcardWith.
      change ("*" ++ middle ++ "*") with (String "*" (middle ++ String "*" "")).
      rewrite eqb_star_long, HasPrefix_cons, HasPrefix_empty.
      change (String "*" (middle ++ String "*" ""))
        with ((String "*" middle) ++ String "*" "") at 1.
      rewrite HasSuffix_snoc. cbn [andb Ascii.eqb Bool.eqb].
      now rewrite slice_middle. }
    split; [exact E|]. rewrite E. rewrite <- Contains_iff. split.
    + intros H. now apply Ok_inj in H.
    + intros ->. reflexivity.
  - intros suffix Hsuf Hne.
    assert (E : matchWildcard ("*" ++ suffix) path
                = Ok (Strings.HasSuffix path suffix)).
    { unfold matchWildcard, matchWildcardWith.
      change ("*" ++ suffix) with (String "*" suffix).
      assert (H1 : (String "*" suffix =? "*") = false).
      { apply String.eqb_neq. intros H. injection H as H. contradiction. }
      assert (H2 : Strings.HasSuffix (String "*" suffix) "*" = false).
      { destruct (Strings.HasSuffix (String "*" suffix) "*") eqn:H; [|reflexivity].
        apply HasSuffix_iff in H as [r Hr]. destruct r as [|d r].
        - simpl in Hr. injection Hr as Hr. contradiction.
        - simpl in Hr. injection Hr as _ Hr.
          assert (Strings.HasSuffix suffix "*" = true)
            by (apply HasSuffix_iff; now exists r).
          congruence. }
      rewrite H1, H2, HasPrefix_cons, HasPrefix_empty.
      cbn [andb Ascii.eqb Bool.eqb]. now rewrite slice_tail. }
    split; [exact E|]. rewrite E, <- HasSuffix_iff. split.
    + intros H. now apply Ok_inj in H.
    + intros ->. reflexivity.
  - intros prefix Hpre Hne.
    assert (E : matchWildcard (prefix ++ "*") path
                = Ok (Strings.HasPrefix path prefix)).
    { destruct prefix as [|a prefix]; [contradiction|].
      rewrite HasPrefix_cons, HasPrefix_empty, andb_true_r in Hpre.
      assert (E1 : (String a prefix ++ "*" =? "*") = false)
        by apply (eqb_star_long a prefix "*").
      assert (E2 : Strings.HasPrefix (String a prefix ++ "*") "*" = false).
      { change (String a prefix ++ "*") with (String a (prefix ++ "*")).
        now rewrite HasPrefix_cons, Hpre. }
      assert (E3 : Strings.HasSuffix (String a prefix ++ "*") "*" = true)
        by apply HasSuffix_snoc.
      unfold matchWildcard, matchWildcardWith.
      rewrite E1, E2, E3. cbn [andb]. now rewrite slice_init. }
    split; [exact E|]. rewrite E, <- HasPrefix_iff. split.
    + intros H. now apply Ok_inj in H.
    + intros ->. reflexivity.
Qed.

Lemma lastMatching_snoc (ps : list Pattern) (p : Pattern) (relPath : string)
      (isDirectory : bool) :
  lastMatching (ps ++ [p]) relPath isDirectory =
  if matchesB p relPath isDirectory then Some p
  else lastMatching ps relPath isDirectory.
Proof. unfold lastMatching. rewrite rev_unit. reflexivity. Qed.

Lemma lastMatching_In (ps : list Pattern) (p : Pattern) (relPath : string)
      (isDirectory : bool) :
  lastMatching ps relPath isDirectory = Some p ->
  In p ps /\ matchesB p relPath isDirectory = true.
Proof.
  unfold lastMatching. intros H. apply find_some in H as [Hin Hm].
  split; [now apply in_rev | exact Hm].
Qed.

Lemma lastMatching_None (ps : list Pattern) (relPath : string) (isDirectory : bool) :
  lastMatching ps relPath isDirectory = None ->
  existsb (fun p => matchesB p relPath isDirectory) ps = false.
Proof.
  unfold lastMatching. intros H.
  destruct (existsb _ ps) eqn:E; [|reflexivity].
  apply existsb_exists in E as [p [Hin Hm]].
  apply in_rev in Hin. now rewrite (find_none _ _ H p Hin) in Hm.
Qed.

(** X7. After AddPattern the new rule has the last word: if it matches the
    path the verdict is the negation of its negated flag, otherwise the
    verdict of the list before is kept. *)
Theorem appended_rule_decides
        (os : OS) (pl pl' : PatternList) (line : string) (p : Pattern)
        (path relPath : string) (isDirectory : bool) :
  compilePattern line = Ok p ->
  AddPattern pl line = Ok pl' ->
  relativePath os pl path = Some relPath ->
  os_Stat os path = StatOk isDirectory ->
  Matches os pl' path
  = if matchesB p relPath isDirectory then Ok (negb (isNegation p))
    else Matches os pl path.
Proof.
  intros Hp Hadd Hrel Hstat.
  unfold AddPattern in Hadd. rewrite Hp in Hadd. cbn [bind] in Hadd.
  apply Ok_inj in Hadd as <-.
  rewrite (Matches_verdict os pl path relPath isDirectory Hrel Hstat).
  rewrite (Matches_verdict os
             {| patterns := patterns pl ++ [p]; basePath := basePath pl |}
             path relPath isDirectory Hrel Hstat).
  unfold lastMatchVerdict. cbn [patterns]. rewrite lastMatching_snoc.
  now destruct (matchesB p relPath isDirectory).
Qed.

(** X8. A list in which every rule is negated excludes no path. *)
Theorem negated_rules_alone_exclude_nothing
        (os : OS) (pl : PatternList) (path : string) :
  (forall p, In p (patterns pl) -> isNegation p = true) ->
  Matches os pl path = Ok false.
Proof.
  intros Hneg. unfold Matches.
  destruct (List.length (patterns pl) =? 0)%nat; [reflexivity|].
  destruct (relativePath os pl path) as [relPath|]; [|reflexivity].
  destruct (os_Stat os path) as [isDirectory| |]; try reflexivity.
  rewrite matchesLoop_last.
  destruct (lastMatching (patterns pl) relPath isDirectory) as [p|] eqn:E;
    [|reflexivity].
  apply lastMatching_In in E as [Hin _]. now rewrite (Hneg p Hin).
Qed.

(** X9. Without negated rules the order of the rules does not matter: a path
    is excluded iff some rule matches it. *)
Theorem without_negation_order_is_irrelevant
        (os : OS) (pl : PatternList) (path relPath : string) (isDirectory : bool) :
  (forall p, In p (patterns pl) -> isNegation p = false) ->
  relativePath os pl path = Some relPath ->
  os_Stat os path = StatOk isDirectory ->
  Matches os pl path
  = Ok (existsb (fun p => matchesB p relPath isDirectory) (patterns pl)).
Proof.
  intros Hpos Hrel Hstat.
  rewrite (Matches_verdict os pl path relPath isDirectory Hrel Hstat).
  unfold lastMatchVerdict. f_equal.
  destruct (lastMatching (patterns pl) relPath isDirectory) as [p|] eqn:E.
  - apply lastMatching_In in E as [Hin Hm]. rewrite (Hpos p Hin). symmetry.
    apply existsb_exists. now exists p.
  - symmetry. now apply lastMatching_None.
Qed.


Lemma AddPattern_originals (pl pl' : PatternList) (line : string) :
  AddPattern pl line = Ok pl' ->
  List.map original (patterns pl') = (List.map original (patterns pl) ++ [line])%list
  /\ basePath pl' = basePath pl.
Proof.
  intros H. destruct (AddPattern_returns pl line) as [p [Hp Hadd]].
  rewrite Hadd in H. apply Ok_inj in H as <-. cbn [patterns basePath].
  rewrite map_app. cbn [List.map].
  destruct (compilePattern_returns line) as [q [Hq [Ho _]]].
  rewrite Hp in Hq. apply Ok_inj in Hq as <-. now rewrite Ho.
Qed.

Lemma scanLines_originals (TrimSpace : string -> string) (lines : list string) :
  forall pl pl',
    scanLines TrimSpace pl lines = Ok pl' ->
    List.map original (patterns pl')
    = (List.map original (patterns pl) ++ keptLines TrimSpace lines)%list
    /\ basePath pl' = basePath pl.
Proof.
  unfold keptLines.
  induction lines as [|line rest IH]; intros pl pl' H.
  - apply Ok_inj in H as <-. cbn. now rewrite app_nil_r.
  - cbn [scanLines List.map List.filter] in *.
    destruct (MaxScanTokenSize <=? Strings.len line)%Z; [discriminate H|].
    destruct ((TrimSpace (dropCR line) =? "")
              || Strings.HasPrefix (TrimSpace (dropCR line)) "#").
    + cbn [negb]. now apply IH.
    + cbn [negb].
      destruct (AddPattern pl (TrimSpace (dropCR line))) as [pl1| | |] eqn:Hadd;
        try discriminate.
      apply AddPattern_originals in Hadd as [Ho Hb].
      apply IH in H as [H1 H2]. rewrite H1, H2, Ho, Hb, <- app_assoc. now split.
Qed.

(** X10. NewPatternList keeps the file order: the rules it returns stem, one
    to one and in order, from the trimmed lines that are neither empty nor
    comments; a rule file that did not exist gives no rule. *)
Theorem NewPatternList_keeps_file_order
        (TrimSpace : string -> string) (os : OS) (filename base : string)
        (pl : PatternList) :
  NewPatternList TrimSpace os filename base = Ok pl ->
  basePath pl = base
  /\ List.map original (patterns pl)
     = match os_Stat os filename, os_Open os filename with
       | StatNotExist, _ => []
       | _, Opened lines _ => keptLines TrimSpace lines
       | _, OpenError => []
       end.
Proof.
  unfold NewPatternList. intros H.
  destruct (os_Stat os filename);
    try (destruct (os_Open os filename) as [|lines scanErr]; [discriminate|];
         destruct (scanLines TrimSpace {| patterns := []; basePath := base |} lines)
           as [pl1| | |] eqn:Hs; try discriminate;
         cbn [bind] in H; destruct scanErr; [discriminate|];
         apply Ok_inj in H as <-;
         apply scanLines_originals in Hs as [H1 H2]; now split).
  destruct (os_WriteFile os filename); [|discriminate].
  apply Ok_inj in H as <-. now split.
Qed.

Lemma TreeNode_induction (P : TreeNode -> Prop) :
  (forall name isDir children,
      Forall P children -> P (Node name isDir children)) ->
  forall node, P node.
Proof.
  intros Hnode. fix IH 1. intros [name isDir children]. apply Hnode.
  induction children as [|child rest IHrest]; constructor.
  - apply IH.
  - exact IHrest.
Qed.

Lemma printTree_unfold (name : string) (isDir : bool) (children : list TreeNode)
      (prefix : string) (isLast : bool) :
  printTree (Node name isDir children) prefix isLast
  = (currentPrefix prefix isLast ++ displayName (Node name isDir children))
      :: printChildren children (childPrefix prefix isLast).
Proof.
  cbn [printTree]. f_equal.
  induction children as [|child rest IH]; [reflexivity|].
  cbn [printChildren]. now rewrite IH.
Qed.

Lemma preorder_unfold (name : string) (isDir : bool) (children : list TreeNode) :
  preorder (Node name isDir children)
  = Node name isDir children :: preorderChildren children.
Proof.
  cbn [preorder]. f_equal.
Qed.

Lemma writeFileContents_unfold (os : TreeOS) (name : string) (isDir : bool)
      (children : list TreeNode) (currentPath output : string) :
  writeFileContents os (Node name isDir children) currentPath output
  = let fullPath := filepathJoin currentPath name in
    if negb isDir then
      match os_Stat (tree_os os) fullPath with
      | StatNotExist => (output, None)
      | StatError => (output, Some (ErrCheckingContents fullPath))
      | StatOk _ =>
          match os_ReadFile os fullPath with
          | None => (output, None)
          | Some content =>
              writeChildren os children fullPath (output ++ fileBlock name content)
          end
      end
    else writeChildren os children fullPath output.
Proof.
  cbn [writeFileContents]. cbv zeta.
  assert (E : forall rest out,
             (fix loop (rest : list TreeNode) (output : string)
                : string * option treeError :=
                match rest with
                | [] => (output, None)
                | child :: rest' =>
                    let (output', err) :=
                      writeFileContents os child
                                        (filepathJoin currentPath name) output in
                    match err with
                    | None => loop rest' output'
                    | Some e => (output', Some e)
                    end
                end) rest out
             = writeChildren os rest (filepathJoin currentPath name) out).
  { induction rest as [|child rest IH]; intros out; [reflexivity|].
    cbn [writeChildren].
    destruct (writeFileContents os child (filepathJoin currentPath name) out)
      as [out' [e|]]; [reflexivity | apply IH]. }
  destruct (negb isDir); [|apply E].
  destruct (os_Stat (tree_os os) (filepathJoin currentPath name)); try reflexivity.
  destruct (os_ReadFile os (filepathJoin currentPath name)); [|reflexivity].
  apply E.
Qed.

(** printTree: one line per node, in depth-first order *)


(** X11. printTree writes one line per node, parents before children and
    children in order, and each line ends with the display name of its
    node. *)
Theorem printTree_lines_follow_preorder (node : TreeNode) :
  forall prefix isLast,
    Forall2 lineOf (printTree node prefix isLast) (preorder node)
    /\ List.length (printTree node prefix isLast) = List.length (preorder node).
Proof.
  assert (H : forall node prefix isLast,
             Forall2 lineOf (printTree node prefix isLast) (preorder node)).
  { clear node. induction node as [name isDir children IH] using TreeNode_induction.
    intros prefix isLast. rewrite printTree_unfold, preorder_unfold.
    constructor; [now exists (currentPrefix prefix isLast)|].
    generalize (childPrefix prefix isLast) as pre.
    induction IH as [|child rest Hchild _ IHrest]; intros pre; [constructor|].
    cbn [printChildren preorderChildren].
    apply Forall2_app; [apply Hchild | apply IHrest]. }
  intros prefix isLast. split; [apply H|].
  exact (Forall2_length (H node prefix isLast)).
Qed.

Lemma append_assoc (a b c : string) : (a ++ b) ++ c = a ++ b ++ c.
Proof. induction a as [|x a IH]; simpl; [reflexivity | now rewrite IH]. Qed.

Lemma append_nonempty (a b : string) : b <> "" -> a ++ b <> "".
Proof. destruct a; simpl; [auto | discriminate]. Qed.

Lemma childPrefix_extends (prefix : string) (isLast : bool) :
  prefix <> "" ->
  childPrefix prefix isLast <> ""
  /\ exists more, childPrefix prefix isLast = prefix ++ more.
Proof.
  intros Hne. unfold childPrefix.
  apply String.eqb_neq in Hne as E. rewrite E.
  destruct isLast; (split; [apply append_nonempty; discriminate | eauto]).
Qed.

Lemma printTree_lines_start_with_prefix (node : TreeNode) :
  forall prefix isLast,
    prefix <> "" ->
    Forall (fun line => Strings.HasPrefix line prefix = true)
           (printTree node prefix isLast).
Proof.
  induction node as [name isDir children IH] using TreeNode_induction.
  intros prefix isLast Hne. rewrite printTree_unfold. constructor.
  - apply HasPrefix_iff. unfold currentPrefix.
    apply String.eqb_neq in Hne as E. rewrite E.
    destruct isLast; rewrite append_assoc; eauto.
  - destruct (childPrefix_extends prefix isLast Hne) as [Hne' [more Hmore]].
    assert (Hsub : forall line,
               Strings.HasPrefix line (childPrefix prefix isLast) = true ->
               Strings.HasPrefix line prefix = true).
    { intros line H. apply HasPrefix_iff in H as [r ->]. apply HasPrefix_iff.
      rewrite Hmore, append_assoc. eauto. }
    revert Hne' Hsub. generalize (childPrefix prefix isLast) as pre.
    intros pre Hpre Hsub.
    induction IH as [|child rest Hchild _ IHrest]; [constructor|].
    cbn [printChildren]. apply Forall_app. split; [|exact IHrest].
    eapply Forall_impl; [|apply Hchild; exact Hpre]. exact Hsub.
Qed.

(** X12. Printed from the root with an empty prefix, the first line is the
    root's display name alone, every other line starts with four spaces,
    and the line of each child of the root is four spaces, the connector
    (the corner for the last child, the tee for the others) and the
    child's display name. *)
Theorem printTree_indents_below_root (name : string) (isDir : bool)
        (children : list TreeNode) (isLast : bool) :
  exists rest,
    printTree (Node name isDir children) "" isLast
    = displayName (Node name isDir children) :: rest
    /\ Forall (fun line => Strings.HasPrefix line "    " = true) rest
    /\ forall child position,
        nth_error children position = Some child ->
        exists before after,
          rest = (before
                    ++ ("    "
                          ++ (if (S position =? List.length children)%nat
                              then "└── " else "├── ")
                          ++ displayName child)%string
                    :: after)%list.
Proof.
  rewrite printTree_unfold. eexists. split; [reflexivity|].
  change (childPrefix "" isLast) with "    ". split.
  - induction children as [|child rest IH]; [constructor|].
    cbn [printChildren]. apply Forall_app. split; [|exact IH].
    apply printTree_lines_start_with_prefix. discriminate.
  - induction children as [|first rest IH]; intros child position Hnth.
    + destruct position; discriminate Hnth.
    + cbn [printChildren]. destruct position as [|position].
      * injection Hnth as ->. destruct child as [cname cdir cchildren].
        rewrite printTree_unfold. exists [].
        eexists. cbn [List.app]. f_equal.
        unfold currentPrefix. cbn [String.eqb Ascii.eqb Bool.eqb].
        destruct rest; reflexivity.
      * destruct (IH child position Hnth) as [before [after Hrest]].
        exists (printTree first "    "
                          (match rest with [] => true | _ => false end) ++ before)%list,
               after.
        rewrite <- app_assoc. f_equal. exact Hrest.
Qed.

Lemma append_empty_r (a : string) : a ++ "" = a.
Proof. induction a as [|x a IH]; simpl; [reflexivity | now rewrite IH]. Qed.


Lemma writeResult_extend (os : TreeOS) (output added : string)
      (r : string * option treeError) :
  writeResult os (output ++ added) r -> writeResult os output r.
Proof.
  intros [[more Hmore] Herr]. split; [|exact Herr].
  exists (added ++ more). now rewrite Hmore, append_assoc.
Qed.

Lemma writeResult_unchanged (os : TreeOS) (output : string) :
  writeResult os output (output, None).
Proof.
  split; [|now left]. exists "". cbn [fst]. now rewrite append_empty_r.
Qed.

(** X13. writeFileContents only ever appends to the output, also when it
    returns an error: the text written before the error stays, after the
    text that was there.  It fails only with the error for a file on which
    os.Stat failed with an error other than not-exist. *)
Theorem writeFileContents_extends_or_stat_error (os : TreeOS) (node : TreeNode) :
  forall currentPath output,
    writeResult os output (writeFileContents os node currentPath output).
Proof.
  induction node as [name isDir children IH] using TreeNode_induction.
  intros currentPath output. rewrite writeFileContents_unfold. cbv zeta.
  assert (Hloop : forall out, writeResult os out
                    (writeChildren os children (filepathJoin currentPath name) out)).
  { generalize (filepathJoin currentPath name) as fullPath. intros fullPath.
    induction IH as [|child rest Hchild _ IHrest]; intros out.
    - apply writeResult_unchanged.
    - cbn [writeChildren]. specialize (Hchild fullPath out).
      destruct (writeFileContents os child fullPath out) as [out' [e|]].
      + exact Hchild.
      + destruct Hchild as [[added Hadded] _]. cbn [fst] in Hadded. subst out'.
        apply (writeResult_extend os out added). apply IHrest. }
  destruct (negb isDir); [|apply Hloop].
  destruct (os_Stat (tree_os os) (filepathJoin currentPath name)) eqn:Hstat.
  - destruct (os_ReadFile os (filepathJoin currentPath name)) as [content|].
    + apply (writeResult_extend os output (fileBlock name content)). apply Hloop.
    + apply writeResult_unchanged.
  - apply writeResult_unchanged.
  - split.
    + exists "". cbn [fst]. now rewrite append_empty_r.
    + right. now exists (filepathJoin currentPath name).
Qed.

(** X14. For a tree of directories only, writeFileContents writes nothing and
    returns no error. *)
Theorem writeFileContents_directories_write_nothing (os : TreeOS) (node : TreeNode) :
  forall currentPath output,
    (forall n, In n (preorder node) -> nodeIsDir n = true) ->
    writeFileContents os node currentPath output = (output, None).
Proof.
  induction node as [name isDir children IH] using TreeNode_induction.
  intros currentPath output Hdirs. rewrite writeFileContents_unfold. cbv zeta.
  rewrite preorder_unfold in Hdirs.
  assert (HisDir : isDir = true) by (apply (Hdirs (Node name isDir children)); now left).
  rewrite HisDir. cbn [negb].
  assert (Hrest : forall n, In n (preorderChildren children) -> nodeIsDir n = true)
    by (intros n Hn; apply Hdirs; now right).
  clear Hdirs. generalize (filepathJoin currentPath name) as fullPath. intros fullPath.
  induction IH as [|child rest Hchild _ IHrest]; [reflexivity|].
  cbn [writeChildren preorderChildren] in *.
  rewrite Hchild by (intros n Hn; apply Hrest, in_or_app; now left).
  apply IHrest. intros n Hn. apply Hrest, in_or_app. now right.
Qed.

Section WalkerFacts.

Variable unicodeToLower : string -> string.

Lemma rules_verdict_returns (os : TreeOS) (fullPath : string)
      (ignoreMatcher : option PatternList) :
  exists b,
    match ignoreMatcher with
    | None => Ret false
    | Some pl => ofOutcome (Matches (tree_os os) pl fullPath)
    end = Ret b.
Proof.
  destruct ignoreMatcher as [pl|]; [|eauto].
  destruct (Matches_returns (tree_os os) pl fullPath) as [b ->]. cbn. eauto.
Qed.

Lemma shouldSkipFile_formula
      (os : TreeOS) (entry : DirEntry) (fullPath : string)
      (ignoreMatcher : option PatternList) (info : FileInfo) :
  entry_Info entry = Some info ->
  shouldSkipFile unicodeToLower os entry fullPath ignoreMatcher
  = Ret (rulesExclude os ignoreMatcher fullPath
         || mapGet skipFiles (entry_Name entry)
         || (info_IsDir info && mapGet skipDirs (entry_Name entry))
         || (negb (info_IsDir info)
             && (mapGet skipExtensions
                        (stringsToLower unicodeToLower
                                        (filepathExt (entry_Name entry)))
                 || (maxFileSize <? info_Size info)%Z
                 || negb (checkReadPermission os fullPath)))).
Proof.
  intros Hinfo. unfold shouldSkipFile, rulesExclude. rewrite Hinfo.
  assert (E : match ignoreMatcher with
              | None => Ret false
              | Some pl => ofOutcome (Matches (tree_os os) pl fullPath)
              end
              = Ret match ignoreMatcher with
                    | None => false
                    | Some pl => returned (Matches (tree_os os) pl fullPath)
                    end).
  { destruct ignoreMatcher as [pl|]; [|reflexivity].
    now destruct (Matches_returns (tree_os os) pl fullPath) as [b ->]. }
  rewrite E.
  destruct (match ignoreMatcher with
            | None => false
            | Some pl => returned (Matches (tree_os os) pl fullPath)
            end); [reflexivity|].
  cbn [orb].
  destruct (mapGet skipFiles (entry_Name entry)); [reflexivity|].
  cbn [orb].
  destruct (info_IsDir info && mapGet skipDirs (entry_Name entry)); [reflexivity|].
  cbn [orb].
  destruct (negb (info_IsDir info)); [|reflexivity].
  cbn [andb].
  destruct (mapGet skipExtensions _); [reflexivity|].
  destruct (maxFileSize <? info_Size info)%Z; [reflexivity|].
  now destruct (negb (checkReadPermission os fullPath)).
Qed.

(** X15. No ignore rule, negated or not, brings back an entry the built-in
    lists skip: a name in skipFiles, a directory in skipDirs, a file with
    a listed extension, a file over 50 MiB or a file that cannot be opened
    is skipped whatever the matcher says. *)
Theorem builtin_skips_override_rules
        (os : TreeOS) (entry : DirEntry) (fullPath : string)
        (ignoreMatcher : option PatternList) (info : FileInfo) :
  entry_Info entry = Some info ->
  mapGet skipFiles (entry_Name entry) = true
  \/ (info_IsDir info = true /\ mapGet skipDirs (entry_Name entry) = true)
  \/ (info_IsDir info = false
      /\ (mapGet skipExtensions
                 (stringsToLower unicodeToLower (filepathExt (entry_Name entry)))
          = true
          \/ (maxFileSize < info_Size info)%Z
          \/ os_Open (tree_os os) fullPath = OpenError)) ->
  shouldSkipFile unicodeToLower os entry fullPath ignoreMatcher = Ret true.
Proof.
  intros Hinfo Hbuiltin.
  rewrite (shouldSkipFile_formula os entry fullPath ignoreMatcher info Hinfo).
  f_equal. destruct Hbuiltin as [H | [[Hd Hs] | [Hd H]]].
  - rewrite H. now rewrite orb_true_r.
  - rewrite Hd, Hs. cbn [andb]. now rewrite orb_true_r.
  - rewrite Hd. cbn [negb andb]. apply orb_true_iff. right.
    destruct H as [H | [H | H]].
    + now rewrite H.
    + apply Z.ltb_lt in H. rewrite H. now rewrite orb_true_r.
    + unfold checkReadPermission. rewrite H. cbn [negb]. now rewrite orb_true_r.
Qed.

(** X16. A directory is skipped iff the ignore rules exclude it or its name is
    in skipFiles or skipDirs; its extension, size and readability play no
    part. *)
Theorem directories_skipped_by_name_or_rule_only
        (os : TreeOS) (entry : DirEntry) (fullPath : string)
        (ignoreMatcher : option PatternList) (info : FileInfo) :
  entry_Info entry = Some info ->
  info_IsDir info = true ->
  shouldSkipFile unicodeToLower os entry fullPath ignoreMatcher
  = Ret (rulesExclude os ignoreMatcher fullPath
         || mapGet skipFiles (entry_Name entry)
         || mapGet skipDirs (entry_Name entry)).
Proof.
  intros Hinfo Hdir.
  rewrite (shouldSkipFile_formula os entry fullPath ignoreMatcher info Hinfo).
  rewrite Hdir. cbn [negb andb]. now rewrite orb_false_r.
Qed.

End WalkerFacts.

Lemma list_ascii_of_append (a b : string) :
  list_ascii_of_string (a ++ b)
  = (list_ascii_of_string a ++ list_ascii_of_string b)%list.
Proof. induction a as [|c a IH]; simpl; [reflexivity | now rewrite IH]. Qed.

Lemma extLoop_finds_dot (ext : list ascii) :
  forall before tail,
    Forall (fun c => Filepath.IsPathSeparator c = false /\ Ascii.eqb c "." = false) ext ->
    extLoop (List.rev ext ++ "."%char :: before) tail
    = string_of_list_ascii ("."%char :: ext ++ tail).
Proof.
  induction ext as [|c ext IH] using rev_ind; intros before tail Hext.
  - reflexivity.
  - apply Forall_app in Hext as [Hext Hc]. inversion Hc as [|? ? [Hsep Hdot] _]; subst.
    rewrite rev_unit. cbn [List.app extLoop]. rewrite Hsep, Hdot.
    rewrite (IH before (c :: tail) Hext). now rewrite <- app_assoc.
Qed.

Lemma filepathExt_last_dot (stem ext : string) :
  Strings.ContainsByte ext "." = false ->
  Strings.ContainsByte ext "/" = false ->
  filepathExt (stem ++ "." ++ ext) = "." ++ ext.
Proof.
  intros Hdot Hsep. unfold filepathExt.
  rewrite list_ascii_of_append. cbn [append list_ascii_of_string].
  rewrite rev_app_distr. cbn [List.rev]. rewrite <- app_assoc. cbn [List.app].
  rewrite extLoop_finds_dot.
  - rewrite app_nil_r. cbn [string_of_list_ascii].
    now rewrite string_of_list_ascii_of_string.
  - apply ContainsByte_Forall in Hdot, Hsep.
    revert Hdot Hsep. generalize (list_ascii_of_string ext) as l.
    induction l as [|c l IH]; intros Hdot Hsep; constructor.
    + inversion Hdot; inversion Hsep; subst. split.
      * unfold Filepath.IsPathSeparator, Filepath.Separator. now apply Ascii.eqb_neq.
      * now apply Ascii.eqb_neq.
    + inversion Hdot; inversion Hsep; subst. now apply IH.
Qed.

Lemma mapBytes_lower_fixed (s : string) :
  anyByte isUpperByte s = false -> mapBytes lowerByte s = s.
Proof.
  induction s as [|c s IH]; [reflexivity|].
  cbn [anyByte mapBytes]. intros H. apply orb_false_iff in H as [Hc Hs].
  rewrite (IH Hs). unfold lowerByte. now rewrite Hc.
Qed.

Lemma stringsToLower_ascii (unicodeToLower : string -> string) (s : string) :
  allBytes isASCIIByte s = true ->
  stringsToLower unicodeToLower s = mapBytes lowerByte s.
Proof.
  intros H. unfold stringsToLower. rewrite H.
  destruct (anyByte isUpperByte s) eqn:Hup; [reflexivity|].
  cbn [negb]. symmetry. now apply mapBytes_lower_fixed.
Qed.

(** X17. The extension test looks at the text after the last '.' of the name,
    without regard to ASCII case: a file whose lower-cased extension is
    listed is skipped. *)
Theorem extension_is_matched_without_case
        (unicodeToLower : string -> string) (os : TreeOS) (entry : DirEntry)
        (fullPath : string) (ignoreMatcher : option PatternList) (info : FileInfo)
        (stem ext : string) :
  entry_Info entry = Some info ->
  info_IsDir info = false ->
  entry_Name entry = stem ++ "." ++ ext ->
  Strings.ContainsByte ext "." = false ->
  Strings.ContainsByte ext "/" = false ->
  allBytes isASCIIByte ext = true ->
  mapGet skipExtensions ("." ++ mapBytes lowerByte ext) = true ->
  shouldSkipFile unicodeToLower os entry fullPath ignoreMatcher = Ret true.
Proof.
  intros Hinfo Hfile Hname Hdot Hsep Hascii Hlisted.
  rewrite (shouldSkipFile_formula unicodeToLower os entry fullPath
             ignoreMatcher info Hinfo).
  rewrite Hfile, Hname, (filepathExt_last_dot stem ext Hdot Hsep).
  change ("." ++ ext) with (String "." ext).
  rewrite stringsToLower_ascii by (cbn [allBytes]; now rewrite Hascii).
  change (mapBytes lowerByte (String "." ext))
    with ("." ++ mapBytes lowerByte ext).
  rewrite Hlisted. cbn [negb andb orb]. now rewrite orb_true_r.
Qed.

Section CreateTreeFacts.

Variable unicodeToLower : string -> string.

Lemma createChildren_kept (descend : string -> walk TreeNode) (os : TreeOS)
      (root : string) (ignoreMatcher : option PatternList) (entries : list DirEntry) :
  forall children result,
    createChildren unicodeToLower descend os root ignoreMatcher entries children
    = Ret result ->
    exists added,
      result = (children ++ added)%list
      /\ Forall2 (fun entry child =>
                    descend (filepathJoin root (entry_Name entry)) = Ret child)
                 (List.filter (keepsEntry unicodeToLower os root ignoreMatcher) entries)
                 added.
Proof.
  induction entries as [|entry rest IH]; intros children result H.
  - apply (f_equal (fun r => match r with Ret a => a | _ => [] end)) in H.
    cbn in H. subst. exists []. split; [now rewrite app_nil_r | constructor].
  - cbn [createChildren List.filter] in *. unfold keepsEntry at 1.
    destruct (shouldSkipFile unicodeToLower os entry
                (filepathJoin root (entry_Name entry)) ignoreMatcher)
      as [[|]| | |]; try discriminate.
    + now apply IH.
    + destruct (descend (filepathJoin root (entry_Name entry))) as [child| | |] eqn:Hd;
        try discriminate.
      apply IH in H as [added [-> Hadded]].
      exists (child :: added). split; [now rewrite <- app_assoc|].
      now constructor.
Qed.

(** X18. The children of a directory node are the trees of exactly those
    entries shouldSkipFile keeps, in the order os.ReadDir lists them; a
    skipped entry is never walked. *)
Theorem createTree_children_are_kept_entries
        (fuel : nat) (os : TreeOS) (root : string)
        (ignoreMatcher : option PatternList) (entries : list DirEntry)
        (node : TreeNode) :
  os_Stat (tree_os os) root = StatOk true ->
  os_ReadDir os root = Some entries ->
  createTree unicodeToLower (S fuel) os root ignoreMatcher = Ret node ->
  nodeName node = stat_Name os root
  /\ nodeIsDir node = true
  /\ Forall2 (fun entry child =>
                createTree unicodeToLower fuel os
                           (filepathJoin root (entry_Name entry)) ignoreMatcher
                = Ret child)
             (List.filter (keepsEntry unicodeToLower os root ignoreMatcher) entries)
             (nodeChildren node).
Proof.
  intros Hstat Hread H. cbn [createTree] in H. rewrite Hstat, Hread in H.
  cbn [negb] in H.
  destruct (createChildren unicodeToLower _ os root ignoreMatcher entries [])
    as [children| | |] eqn:Hc; try discriminate.
  apply (f_equal (fun r => match r with Ret a => a | _ => Node "" false [] end)) in H.
  cbn in H. subst node. cbn [nodeName nodeIsDir nodeChildren].
  split; [reflexivity|]. split; [reflexivity|].
  apply createChildren_kept in Hc as [added [-> Hadded]]. exact Hadded.
Qed.


Lemma shouldSkipFile_finished (os : TreeOS) (entry : DirEntry) (fullPath : string)
      (ignoreMatcher : option PatternList) :
  finished (shouldSkipFile unicodeToLower os entry fullPath ignoreMatcher).
Proof.
  unfold shouldSkipFile, finished.
  destruct (entry_Info entry) as [info|]; [|eauto].
  destruct (rules_verdict_returns os fullPath ignoreMatcher) as [b ->].
  destruct b; [eauto|].
  destruct (mapGet skipFiles (entry_Name entry)); [eauto|].
  destruct (info_IsDir info && mapGet skipDirs (entry_Name entry)); [eauto|].
  destruct (negb (info_IsDir info)); [|eauto].
  destruct (mapGet skipExtensions _); [eauto|].
  destruct (maxFileSize <? info_Size info)%Z; [eauto|].
  destruct (negb (checkReadPermission os fullPath)); eauto.
Qed.

Lemma createChildren_finished (descend : string -> walk TreeNode) (os : TreeOS)
      (root : string) (ignoreMatcher : option PatternList) (entries : list DirEntry) :
  (forall entry, In entry entries ->
                 finished (descend (filepathJoin root (entry_Name entry)))) ->
  forall children,
    finished (createChildren unicodeToLower descend os root ignoreMatcher
                             entries children).
Proof.
  induction entries as [|entry rest IH]; intros Hd children.
  - left. cbn. eauto.
  - cbn [createChildren].
    destruct (shouldSkipFile_finished os entry
                (filepathJoin root (entry_Name entry)) ignoreMatcher)
      as [[b ->] | [e ->]]; [|right; eauto].
    destruct b.
    + apply IH. intros e He. apply Hd. now right.
    + destruct (Hd entry (or_introl eq_refl)) as [[child ->] | [e ->]];
        [|right; eauto].
      apply IH. intros e He. apply Hd. now right.
Qed.

Lemma createChildren_ext (d1 d2 : string -> walk TreeNode) (os : TreeOS)
      (root : string) (ignoreMatcher : option PatternList) (entries : list DirEntry) :
  (forall entry, In entry entries ->
                 d1 (filepathJoin root (entry_Name entry))
                 = d2 (filepathJoin root (entry_Name entry))) ->
  forall children,
    createChildren unicodeToLower d1 os root ignoreMatcher entries children
    = createChildren unicodeToLower d2 os root ignoreMatcher entries children.
Proof.
  induction entries as [|entry rest IH]; intros Hd children; [reflexivity|].
  cbn [createChildren]. rewrite <- (Hd entry (or_introl eq_refl)).
  destruct (shouldSkipFile unicodeToLower os entry _ ignoreMatcher) as [[|]| | |];
    try reflexivity.
  - apply IH. intros e He. apply Hd. now right.
  - destruct (d1 (filepathJoin root (entry_Name entry))); try reflexivity.
    apply IH. intros e He. apply Hd. now right.
Qed.

Section FiniteDepth.

Variable os : TreeOS.
Variable depth : string -> nat.
Hypothesis depth_decreases :
  forall dir entries entry,
    os_ReadDir os dir = Some entries ->
    In entry entries ->
    (depth (filepathJoin dir (entry_Name entry)) < depth dir)%nat.

Lemma createTree_finished (ignoreMatcher : option PatternList) (fuel : nat) :
  forall root,
    (depth root < fuel)%nat ->
    finished (createTree unicodeToLower fuel os root ignoreMatcher).
Proof.
  induction fuel as [|fuel IH]; intros root Hlt; [lia|].
  cbn [createTree].
  destruct (os_Stat (tree_os os) root) as [isDirectory| |];
    try (right; eauto; fail).
  destruct (negb isDirectory); [left; eauto|].
  destruct (os_ReadDir os root) as [entries|] eqn:Hread; [|right; eauto].
  destruct (createChildren_finished
              (fun childPath => createTree unicodeToLower fuel os childPath ignoreMatcher)
              os root ignoreMatcher entries) with (children := @nil TreeNode)
    as [[children ->] | [e ->]].
  - intros entry Hin. apply IH.
    pose proof (depth_decreases root entries entry Hread Hin). lia.
  - left. eauto.
  - right. eauto.
Qed.

Lemma createTree_fuel_irrelevant (ignoreMatcher : option PatternList) (fuel : nat) :
  forall fuel' root,
    (depth root < fuel)%nat -> (depth root < fuel')%nat ->
    createTree unicodeToLower fuel os root ignoreMatcher
    = createTree unicodeToLower fuel' os root ignoreMatcher.
Proof.
  induction fuel as [|fuel IH]; intros fuel' root Hlt Hlt'; [lia|].
  destruct fuel' as [|fuel']; [lia|].
  cbn [createTree].
  destruct (os_Stat (tree_os os) root) as [isDirectory| |]; try reflexivity.
  destruct (negb isDirectory); [reflexivity|].
  destruct (os_ReadDir os root) as [entries|] eqn:Hread; [|reflexivity].
  rewrite (createChildren_ext
             (fun childPath => createTree unicodeToLower fuel os childPath ignoreMatcher)
             (fun childPath => createTree unicodeToLower fuel' os childPath ignoreMatcher));
    [reflexivity|].
  intros entry Hin.
  pose proof (depth_decreases root entries entry Hread Hin).
  apply IH; lia.
Qed.

End FiniteDepth.

(** X19. On a file tree of finite depth createTree returns a tree or an error,
    and the result does not depend on the step bound once it exceeds the
    depth. *)
Theorem createTree_terminates_on_finite_depth
        (os : TreeOS) (depth : string -> nat)
        (ignoreMatcher : option PatternList) (root : string) (fuel : nat) :
  (forall dir entries entry,
      os_ReadDir os dir = Some entries ->
      In entry entries ->
      (depth (filepathJoin dir (entry_Name entry)) < depth dir)%nat) ->
  (depth root < fuel)%nat ->
  ((exists node, createTree unicodeToLower fuel os root ignoreMatcher = Ret node)
   \/ (exists e, createTree unicodeToLower fuel os root ignoreMatcher = Raise e))
  /\ createTree unicodeToLower fuel os root ignoreMatcher
     = createTree unicodeToLower (S (depth root)) os root ignoreMatcher.
Proof.
  intros Hdepth Hlt. split.
  - exact (createTree_finished os depth Hdepth ignoreMatcher fuel root Hlt).
  - apply (createTree_fuel_irrelevant os depth Hdepth); lia.
Qed.

End CreateTreeFacts.


Lemma preorderChildren_Forall (P : TreeNode -> Prop) (children : list TreeNode) :
  Forall (fun child => Forall P (preorder child)) children ->
  Forall P (preorderChildren children).
Proof.
  induction 1 as [|child rest Hchild _ IH]; [constructor|].
  cbn [preorderChildren]. apply Forall_app. now split.
Qed.

(** X20. In every tree createTree returns, a node that is not a directory has
    no children. *)
Theorem createTree_files_are_leaves
        (unicodeToLower : string -> string) (fuel : nat) (os : TreeOS) :
  forall (root : string) (ignoreMatcher : option PatternList) (node : TreeNode),
    createTree unicodeToLower fuel os root ignoreMatcher = Ret node ->
    Forall leafIfFile (preorder node).
Proof.
  induction fuel as [|fuel IH]; intros root ignoreMatcher node H; [discriminate|].
  cbn [createTree] in H.
  destruct (os_Stat (tree_os os) root) as [isDirectory| |]; try discriminate.
  destruct isDirectory; cbn [negb] in H.
  - destruct (os_ReadDir os root) as [entries|]; [|discriminate].
    destruct (createChildren unicodeToLower _ os root ignoreMatcher entries [])
      as [children| | |] eqn:Hc; try discriminate.
    apply (f_equal (fun r => match r with Ret a => a | _ => Node "" false [] end)) in H.
    cbn in H. subst node. rewrite preorder_unfold. constructor.
    + intros Hfile. discriminate Hfile.
    + apply createChildren_kept in Hc as [added [-> Hadded]]. cbn [List.app].
      apply preorderChildren_Forall.
      induction Hadded as [|entry child entries' added' Hchild _ IHadded];
        constructor; [|exact IHadded].
      now apply IH in Hchild.
  - apply (f_equal (fun r => match r with Ret a => a | _ => Node "" true [] end)) in H.
    cbn in H. subst node. rewrite preorder_unfold. repeat constructor.
Qed.

Lemma HasSuffix_cons_other (c : ascii) (s : string) :
  c <> "/"%char ->
  Strings.HasSuffix (String c s) "/" = Strings.HasSuffix s "/".
Proof.
  intros Hc. apply Bool.eq_true_iff_eq. rewrite !HasSuffix_iff. split.
  - intros [r Hr]. destruct r as [|d r].
    + simpl in Hr. injection Hr as Hr _. contradiction.
    + simpl in Hr. injection Hr as _ ->. now exists r.
  - intros [r ->]. now exists (String c r).
Qed.

Lemma stripPattern_negated (line : string) :
  Strings.HasPrefix line "!" = false ->
  stripPattern ("!" ++ line) = stripPattern line.
Proof.
  intros Hpre. unfold stripPattern. rewrite Hpre.
  change ("!" ++ line) with (String "!" line).
  rewrite HasPrefix_cons, HasPrefix_empty.
  cbn [andb Ascii.eqb Bool.eqb]. rewrite slice_tail. cbn [bind].
  rewrite HasSuffix_cons_other by discriminate. reflexivity.
Qed.

Lemma HasPrefix_snoc (line : string) (c b : ascii) :
  c <> b ->
  Strings.HasPrefix (line ++ String c "") (String b "")
  = Strings.HasPrefix line (String b "").
Proof.
  intros Hc. destruct line as [|a line].
  - cbn [append]. rewrite HasPrefix_cons, HasPrefix_of_empty.
    apply Ascii.eqb_neq in Hc. now rewrite Hc.
  - cbn [append]. now rewrite !HasPrefix_cons, !HasPrefix_empty.
Qed.

Lemma stripPattern_directory (line : string) :
  Strings.HasSuffix line "/" = false ->
  stripPattern (line ++ "/") = stripPattern line.
Proof.
  intros Hsuf. unfold stripPattern.
  rewrite HasPrefix_snoc by discriminate. rewrite Hsuf, HasSuffix_snoc.
  destruct (Strings.HasPrefix line "!") eqn:Hpre.
  - apply HasPrefix_byte in Hpre as [r ->]. cbn [append].
    rewrite !slice_tail. cbn [bind]. apply slice_init.
  - cbn [bind]. apply slice_init.
Qed.

(** X21. Putting '!' before a rule line changes its negated flag and nothing
    else: the negated rule matches exactly the entries the plain rule
    matches. *)
Theorem negation_keeps_what_a_rule_matches (line : string) (p q : Pattern) :
  Strings.HasPrefix line "!" = false ->
  compilePattern line = Ok p ->
  compilePattern ("!" ++ line) = Ok q ->
  isNegation p = false
  /\ isNegation q = true
  /\ forall path isDirectory,
      matches q path isDirectory = matches p path isDirectory.
Proof.
  intros Hpre Hp Hq.
  apply compilePattern_inv in Hp as [sp [Hsp ->]].
  apply compilePattern_inv in Hq as [sq [Hsq ->]].
  rewrite (stripPattern_negated line Hpre), Hsp in Hsq. apply Ok_inj in Hsq as <-.
  cbn [isNegation]. change ("!" ++ line) with (String "!" line).
  split; [exact Hpre|]. split; [now rewrite HasPrefix_cons, HasPrefix_empty|].
  intros path isDirectory. unfold matches. cbn [isDir isExact segments].
  now rewrite HasSuffix_cons_other by discriminate.
Qed.

(** X22. Putting '/' after a rule line restricts it to directories and changes
    nothing else: on directories it matches as before, on other entries
    never. *)
Theorem trailing_slash_only_restricts_to_directories
        (line : string) (p q : Pattern) :
  Strings.HasSuffix line "/" = false ->
  compilePattern line = Ok p ->
  compilePattern (line ++ "/") = Ok q ->
  forall path,
    matches q path true = matches p path true
    /\ matches q path false = Ok false.
Proof.
  intros Hsuf Hp Hq path.
  apply compilePattern_inv in Hp as [sp [Hsp ->]].
  apply compilePattern_inv in Hq as [sq [Hsq ->]].
  rewrite (stripPattern_directory line Hsuf), Hsp in Hsq. apply Ok_inj in Hsq as <-.
  unfold matches. cbn [isDir isExact segments].
  rewrite Hsuf, HasSuffix_snoc. cbn [negb andb]. now split.
Qed.

Lemma legacy_matchesLoop_existsb (ps : list Legacy.Pattern) (relPath : string) :
  Legacy.matchesLoop ps relPath
  = existsb (fun p => Legacy.patternMatches p relPath) ps.
Proof.
  induction ps as [|p ps IH]; [reflexivity|].
  cbn [Legacy.matchesLoop existsb]. unfold Legacy.patternMatches at 1.
  rewrite IH.
  destruct (negb (Legacy.extension p =? "")
            && Strings.HasSuffix relPath (Legacy.extension p)); [reflexivity|].
  destruct (negb (Legacy.directory p =? "")); [|reflexivity].
  now destruct (Strings.HasPrefix relPath (Legacy.directory p)).
Qed.

Lemma legacy_compilePattern_returns (pattern : string) :
  exists p, Legacy.compilePattern pattern = Ok p
            /\ (Strings.HasPrefix pattern "*." = true ->
                exists ext, pattern = "*." ++ ext
                            /\ Legacy.extension p = "." ++ ext)
            /\ (Strings.HasPrefix pattern "*." = false ->
                Legacy.directory p = Filepath.Clean pattern).
Proof.
  unfold Legacy.compilePattern, Legacy.TrimPrefix.
  destruct (Strings.HasPrefix pattern "*.") eqn:Hpre.
  - apply HasPrefix_iff in Hpre as [ext ->].
    change ("*." ++ ext) with (String "*" (String "." ext)).
    rewrite HasPrefix_cons, HasPrefix_empty. cbn [andb Ascii.eqb Bool.eqb].
    change (Strings.len "*") with 1%Z. rewrite slice_tail. cbn [bind].
    eexists. split; [reflexivity|]. split; [|discriminate].
    intros _. now exists ext.
  - eexists. split; [reflexivity|]. split; [discriminate | reflexivity].
Qed.

Lemma Legacy_AddPattern_returns (pl : Legacy.PatternList) (pattern : string) :
  exists p, Legacy.compilePattern pattern = Ok p
            /\ Legacy.AddPattern pl pattern
               = Ok {| Legacy.patterns := Legacy.patterns pl ++ [p];
                       Legacy.basePath := Legacy.basePath pl;
                       Legacy.matchType := Legacy.matchType pl |}.
Proof.
  destruct (legacy_compilePattern_returns pattern) as [p [Hp _]].
  exists p. split; [exact Hp|]. unfold Legacy.AddPattern. now rewrite Hp.
Qed.

Lemma Clean_nonempty (path : string) : Filepath.Clean path <> "".
Proof.
  unfold Filepath.Clean.
  destruct (list_ascii_of_string path) as [|c rest]; [discriminate|].
  match goal with
  | |- context [match ?o with [] => _ | _ :: _ => _ end] => destruct o as [|x o'] eqn:E
  end; [discriminate|].
  intros H. apply (f_equal list_ascii_of_string) in H.
  rewrite list_ascii_of_string_of_list_ascii in H. cbn in H.
  apply (f_equal (@List.length ascii)) in H.
  rewrite length_app in H. simpl in H. lia.
Qed.

(** X23. In the earlier matcher a non-empty list only grows in what it
    matches: a path that matches still matches after AddPattern. *)
Theorem legacy_adding_a_rule_never_unmatches
        (os : OS) (pl pl' : Legacy.PatternList) (line path : string) :
  Legacy.patterns pl <> [] ->
  Legacy.AddPattern pl line = Ok pl' ->
  Legacy.Matches os pl path = true ->
  Legacy.Matches os pl' path = true.
Proof.
  intros Hne Hadd Hm.
  destruct (Legacy_AddPattern_returns pl line) as [p [_ E]].
  rewrite E in Hadd. apply Ok_inj in Hadd as <-.
  unfold Legacy.Matches in *. cbn [Legacy.patterns Legacy.basePath].
  destruct (Legacy.patterns pl) as [|p0 ps] eqn:Hps; [contradiction|].
  cbn [List.app List.length Nat.eqb] in *.
  destruct (if Filepath.IsAbs path then filepath_Rel os (Legacy.basePath pl) path
            else Some path) as [relPath|]; [|discriminate].
  rewrite legacy_matchesLoop_existsb in *.
  change (p0 :: ps ++ [p])%list with ((p0 :: ps) ++ [p])%list.
  rewrite existsb_app, Hm. reflexivity.
Qed.

(** X24. In the earlier matcher a rule "*.ext" matches every relative path
    whose cleaned form ends with ".ext", at any depth, and any other rule
    matches every relative path whose cleaned form starts with the cleaned
    rule text, whether or not a segment ends there. *)
Theorem legacy_rules_match_whole_path
        (os : OS) (pl pl' : Legacy.PatternList) (line path : string) :
  Legacy.AddPattern pl line = Ok pl' ->
  Filepath.IsAbs path = false ->
  (forall ext,
      line = "*." ++ ext ->
      Strings.HasSuffix (Filepath.Clean path) ("." ++ ext) = true ->
      Legacy.Matches os pl' path = true)
  /\ (Strings.HasPrefix line "*." = false ->
      Strings.HasPrefix (Filepath.Clean path) (Filepath.Clean line) = true ->
      Legacy.Matches os pl' path = true).
Proof.
  intros Hadd Hrel.
  destruct (Legacy_AddPattern_returns pl line) as [p [Hp E]].
  rewrite E in Hadd. apply Ok_inj in Hadd as <-.
  destruct (legacy_compilePattern_returns line) as [q [Hq [Hext Hdir]]].
  rewrite Hp in Hq. apply Ok_inj in Hq as <-.
  assert (Hm : Legacy.patternMatches p (Filepath.Clean path) = true ->
               Legacy.Matches os
                 {| Legacy.patterns := Legacy.patterns pl ++ [p];
                    Legacy.basePath := Legacy.basePath pl;
                    Legacy.matchType := Legacy.matchType pl |} path = true).
  { intros H. unfold Legacy.Matches. cbn [Legacy.patterns Legacy.basePath].
    rewrite Hrel, length_app. cbn [List.length].
    replace (List.length (Legacy.patterns pl) + 1 =? 0)%nat with false
      by (symmetry; apply Nat.eqb_neq; lia).
    rewrite legacy_matchesLoop_existsb, existsb_app. cbn [existsb].
    rewrite H. now rewrite orb_true_r. }
  split.
  - intros ext Hline Hsuf. apply Hm. unfold Legacy.patternMatches.
    destruct Hext as [ext' [Hline' Hpext]].
    { rewrite Hline. change ("*." ++ ext) with (String "*" (String "." ext)).
      now rewrite !HasPrefix_cons, HasPrefix_empty. }
    rewrite Hline in Hline'. injection Hline' as <-.
    rewrite Hpext, Hsuf. reflexivity.
  - intros Hpre Hpath. apply Hm. unfold Legacy.patternMatches.
    rewrite (Hdir Hpre), Hpath.
    pose proof (Clean_nonempty line) as Hne. apply String.eqb_neq in Hne.
    rewrite Hne. cbn [negb andb]. apply orb_true_r.
Qed.

(** X25. Two "**" segments in a row match exactly what one does. *)
Theorem double_stars_collapse (patRest pathSegs : list string) :
  matchSegmentsB ("**" :: "**" :: patRest) pathSegs
  = matchSegmentsB ("**" :: patRest) pathSegs
  /\ matchSegments ("**" :: "**" :: patRest) pathSegs
     = matchSegments ("**" :: patRest) pathSegs.
Proof.
  assert (E : matchSegmentsB ("**" :: "**" :: patRest) pathSegs
              = matchSegmentsB ("**" :: patRest) pathSegs).
  { apply Bool.eq_true_iff_eq.
    rewrite (matchSegmentsB_stars_absorb ("**" :: patRest) pathSegs).
    rewrite (matchSegmentsB_stars_absorb patRest pathSegs). split.
    - intros [k [Hk H]]. apply matchSegmentsB_stars_absorb in H as [j [Hj H]].
      rewrite skipn_skipn in H. exists (j + k)%nat. split; [|exact H].
      rewrite length_skipn in Hj. lia.
    - intros [m [Hm H]]. exists m. split; [exact Hm|].
      apply matchSegmentsB_stars_absorb. exists 0%nat. split; [lia | exact H]. }
  split; [exact E|]. now rewrite !matchSegments_returns, E.
Qed.

Lemma matchSegmentsB_trailing_stars_bounded (n : nat) (more : list string) :
  forall patternSegs pathSegs,
    (segmentsMeasure patternSegs pathSegs <= n)%nat ->
    matchSegmentsB patternSegs pathSegs = true ->
    matchSegmentsB (patternSegs ++ ["**"]) (pathSegs ++ more) = true.
Proof.
  unfold segmentsMeasure.
  induction n as [|n IH]; intros pat path Hn H.
  - destruct pat; [|simpl in Hn; lia]. destruct path; [|simpl in Hn; lia].
    cbn [List.app]. now apply matchSegmentsB_all_stars.
  - destruct pat as [|patSeg patRest].
    + rewrite matchSegmentsB_nil in H. apply Nat.eqb_eq in H.
      destruct path; [|discriminate H]. cbn [List.app].
      now apply matchSegmentsB_all_stars.
    + destruct path as [|pathSeg pathRest].
      * rewrite matchSegmentsB_exhausted in H. cbn [forallb] in H.
        apply andb_prop in H as [Hseg Hrest]. apply String.eqb_eq in Hseg as ->.
        cbn [List.app]. apply matchSegmentsB_all_stars.
        rewrite forallb_app, Hrest. reflexivity.
      * cbn [List.app]. simpl List.length in Hn.
        destruct (patSeg =? "**") eqn:Hseg.
        -- apply String.eqb_eq in Hseg as ->.
           rewrite matchSegmentsB_stars in H. rewrite matchSegmentsB_stars.
           apply orb_true_iff in H as [H | H]; apply orb_true_iff.
           ++ left. apply (IH patRest (pathSeg :: pathRest)); [simpl; lia | exact H].
           ++ right. apply (IH ("**" :: patRest) pathRest); [simpl; lia | exact H].
        -- rewrite (matchSegmentsB_segment _ _ _ _ Hseg) in H.
           rewrite (matchSegmentsB_segment _ _ _ _ Hseg).
           apply andb_prop in H as [Hw H]. rewrite Hw. cbn [andb].
           apply IH; [lia | exact H].
Qed.

(** X26. A wildcard rule that ends in a "**" segment matches every path its
    front part matches, and everything below such a path, for every entry
    that passes its directory-only gate: for all entries if the rule is not
    directory-only, for directories and never for other entries if it is. *)
Theorem trailing_double_star_matches_below
        (q : Pattern) (front : list string) (dir more : string)
        (isDirectory : bool) :
  isExact q = false ->
  segments q = (front ++ ["**"])%list ->
  matchSegments front (Strings.Split dir "/") = Ok true ->
  matches q dir isDirectory = Ok (negb (isDir q && negb isDirectory))
  /\ matches q (dir ++ "/" ++ more) isDirectory
     = Ok (negb (isDir q && negb isDirectory)).
Proof.
  intros Hq Hseg H.
  rewrite matchSegments_returns in H. apply Ok_inj in H.
  rewrite (matches_wildcard_rule q dir _ Hq).
  rewrite (matches_wildcard_rule q (dir ++ "/" ++ more) _ Hq).
  rewrite Hseg.
  assert (E1 : matchSegmentsB (front ++ ["**"]) (Strings.Split dir "/") = true).
  { rewrite <- (app_nil_r (Strings.Split dir "/")).
    now apply (matchSegmentsB_trailing_stars_bounded
                 (segmentsMeasure front (Strings.Split dir "/"))). }
  assert (E2 : matchSegmentsB (front ++ ["**"])
                              (Strings.Split (dir ++ "/" ++ more) "/") = true).
  { change (dir ++ "/" ++ more) with (dir ++ String "/" more).
    rewrite Split_app.
    now apply (matchSegmentsB_trailing_stars_bounded
                 (segmentsMeasure front (Strings.Split dir "/"))). }
  rewrite E1, E2, andb_true_r. now split.
Qed.

(** X27. determinePatternType returns a file that exists or that it has just
    created; it chooses the filter file only when the ignore file does not
    exist, and the ignore file otherwise. *)
Theorem legacy_determinePatternType_picks_existing_file
        (os : OS) (ignoreFile filterFile file : string) (t : Legacy.PatternType) :
  Legacy.determinePatternType os ignoreFile filterFile = Ok (file, t) ->
  ((exists isDirectory, os_Stat os file = StatOk isDirectory)
   \/ (file = ignoreFile /\ os_WriteFile os ignoreFile = true))
  /\ (t = Legacy.Filter ->
      file = filterFile
      /\ forall isDirectory, os_Stat os ignoreFile <> StatOk isDirectory)
  /\ (t = Legacy.Ignore -> file = ignoreFile).
Proof.
  unfold Legacy.determinePatternType. intros H.
  destruct (os_Stat os ignoreFile) as [d| |] eqn:Hi.
  - apply Ok_inj in H. injection H as <- <-.
    split; [left; eauto|]. split; [discriminate | reflexivity].
  - destruct (os_Stat os filterFile) as [d| |] eqn:Hf.
    + apply Ok_inj in H. injection H as <- <-.
      split; [left; eauto|]. split; [|discriminate].
      intros _. split; [reflexivity|]. intros d'. discriminate.
    + destruct (os_WriteFile os ignoreFile) eqn:Hw; [|discriminate].
      apply Ok_inj in H. injection H as <- <-.
      split; [right; now split|]. split; [discriminate | reflexivity].
    + destruct (os_WriteFile os ignoreFile) eqn:Hw; [|discriminate].
      apply Ok_inj in H. injection H as <- <-.
      split; [right; now split|]. split; [discriminate | reflexivity].
  - destruct (os_Stat os filterFile) as [d| |] eqn:Hf.
    + apply Ok_inj in H. injection H as <- <-.
      split; [left; eauto|]. split; [|discriminate].
      intros _. split; [reflexivity|]. intros d'. discriminate.
    + destruct (os_WriteFile os ignoreFile) eqn:Hw; [|discriminate].
      apply Ok_inj in H. injection H as <- <-.
      split; [right; now split|]. split; [discriminate | reflexivity].
    + destruct (os_WriteFile os ignoreFile) eqn:Hw; [|discriminate].
      apply Ok_inj in H. injection H as <- <-.
      split; [right; now split|]. split; [discriminate | reflexivity].
Qed.


(** * The properties at concrete inputs *)

Lemma splitPattern_plain_split_witness :
  Strings.ContainsByte "src/**/x*" NULc = false
  /\ splitPattern "src/**/x*" = Strings.Split "src/**/x*" "/"
  /\ Strings.Join (splitPattern "src/**/x*") "/" = "src/**/x*".
Proof.
  split; [reflexivity|].
  exact (proj2 (splitPattern_plain_split "src/**/x*") eq_refl).
Defined.

Lemma exact_rule_matches_cleaned_text_witness :
  Strings.ContainsByte "!./docs//README.md/" NULc = false
  /\ stripPattern "!./docs//README.md/" = Ok "./docs//README.md"
  /\ compilePattern "!./docs//README.md/" = Ok (compiled "!./docs//README.md/")
  /\ isExact (compiled "!./docs//README.md/") = true
  /\ matches (compiled "!./docs//README.md/") "docs/README.md" true = Ok true.
Proof.
  split; [reflexivity|]. split; [reflexivity|]. split; [reflexivity|].
  split; [reflexivity|].
  apply (proj2 (exact_rule_matches_cleaned_text
                  "!./docs//README.md/" "./docs//README.md"
                  (compiled "!./docs//README.md/") "docs/README.md" true
                  eq_refl eq_refl eq_refl eq_refl)).
  split; [right; reflexivity | reflexivity].
Defined.

Lemma rule_without_stars_fixes_depth_witness :
  isExact (compiled "*.log") = false
  /\ (forall seg, In seg (segments (compiled "*.log")) -> seg <> "**")
  /\ matches (compiled "*.log") "debug.log" false = Ok true
  /\ List.length (Strings.Split "debug.log" "/")
     = List.length (segments (compiled "*.log"))
  /\ Strings.ContainsByte "debug.log" "/" = false.
Proof.
  assert (Hno : forall seg, In seg (segments (compiled "*.log")) -> seg <> "**").
  { intros seg [<- | []]. discriminate. }
  split; [reflexivity|]. split; [exact Hno|]. split; [reflexivity|].
  destruct (rule_without_stars_fixes_depth (compiled "*.log") "debug.log" false
              eq_refl Hno eq_refl) as [Hlen Hone].
  split; [exact Hlen | exact (Hone eq_refl)].
Defined.

Lemma rule_of_double_stars_matches_all_witness :
  isExact (compiled "**") = false
  /\ segments (compiled "**") <> []
  /\ forallb (fun seg => seg =? "**") (segments (compiled "**")) = true
  /\ matches (compiled "**") "src/cmd/main.go" false = Ok true.
Proof.
  assert (Hne : segments (compiled "**") <> []) by discriminate.
  split; [reflexivity|]. split; [exact Hne|]. split; [reflexivity|].
  exact (rule_of_double_stars_matches_all (compiled "**") "src/cmd/main.go" false
           eq_refl Hne eq_refl).
Defined.

Lemma leading_double_star_any_directory_witness :
  isExact (compiled "**/test.txt") = false
  /\ segments (compiled "**/test.txt") = ["**"; "test.txt"]
  /\ matches (compiled "**/test.txt") "test.txt" false = Ok true
  /\ matches (compiled "**/test.txt") ("a/b" ++ "/" ++ "test.txt") false = Ok true.
Proof.
  split; [reflexivity|]. split; [reflexivity|]. split; [reflexivity|].
  exact (leading_double_star_any_directory (compiled "**/test.txt") ["test.txt"]
           "a/b" "test.txt" false eq_refl eq_refl eq_refl).
Defined.

Lemma matchWildcard_star_shapes_witness :
  Strings.HasSuffix ".go" "*" = false
  /\ ".go" <> ""
  /\ matchWildcard ("*" ++ ".go") "main.go" = Ok (Strings.HasSuffix "main.go" ".go")
  /\ Strings.HasPrefix "test_" "*" = false
  /\ "test_" <> ""
  /\ matchWildcard ("test_" ++ "*") "prod_a" = Ok (Strings.HasPrefix "prod_a" "test_").
Proof.
  assert (H1 : ".go" <> "") by discriminate.
  assert (H2 : "test_" <> "") by discriminate.
  split; [reflexivity|]. split; [exact H1|]. split.
  - exact (proj1 (proj1 (proj2 (matchWildcard_star_shapes "main.go"))
                        ".go" eq_refl H1)).
  - split; [reflexivity|]. split; [exact H2|].
    exact (proj1 (proj2 (proj2 (matchWildcard_star_shapes "prod_a"))
                        "test_" eq_refl H2)).
Defined.

Lemma appended_rule_decides_witness :
  compilePattern "!keep.log" = Ok (compiled "!keep.log")
  /\ AddPattern (rulesOf "/w" ["*.log"]) "!keep.log"
     = Ok (rulesOf "/w" ["*.log"; "!keep.log"])
  /\ relativePath (osWith "keep.log" false) (rulesOf "/w" ["*.log"]) "keep.log"
     = Some "keep.log"
  /\ os_Stat (osWith "keep.log" false) "keep.log" = StatOk false
  /\ Matches (osWith "keep.log" false) (rulesOf "/w" ["*.log"]) "keep.log" = Ok true
  /\ Matches (osWith "keep.log" false) (rulesOf "/w" ["*.log"; "!keep.log"])
             "keep.log" = Ok false.
Proof.
  split; [reflexivity|]. split; [reflexivity|]. split; [reflexivity|].
  split; [reflexivity|]. split; [reflexivity|].
  exact (appended_rule_decides (osWith "keep.log" false) (rulesOf "/w" ["*.log"])
           (rulesOf "/w" ["*.log"; "!keep.log"]) "!keep.log" (compiled "!keep.log")
           "keep.log" "keep.log" false eq_refl eq_refl eq_refl eq_refl).
Defined.

Lemma negated_rules_alone_exclude_nothing_witness :
  (forall p, In p (patterns (rulesOf "/w" ["!keep.log"; "!*.md"])) ->
             isNegation p = true)
  /\ Matches (osWith "keep.log" false) (rulesOf "/w" ["!keep.log"; "!*.md"])
             "keep.log" = Ok false.
Proof.
  assert (H : forall p, In p (patterns (rulesOf "/w" ["!keep.log"; "!*.md"])) ->
                        isNegation p = true).
  { intros p [<- | [<- | []]]; reflexivity. }
  split; [exact H|].
  exact (negated_rules_alone_exclude_nothing (osWith "keep.log" false)
           (rulesOf "/w" ["!keep.log"; "!*.md"]) "keep.log" H).
Defined.

Lemma without_negation_order_is_irrelevant_witness :
  (forall p, In p (patterns (rulesOf "/w" ["*.log"; "*.tmp"])) ->
             isNegation p = false)
  /\ relativePath (osWith "a.tmp" false) (rulesOf "/w" ["*.log"; "*.tmp"]) "a.tmp"
     = Some "a.tmp"
  /\ os_Stat (osWith "a.tmp" false) "a.tmp" = StatOk false
  /\ Matches (osWith "a.tmp" false) (rulesOf "/w" ["*.log"; "*.tmp"]) "a.tmp"
     = Ok true.
Proof.
  assert (H : forall p, In p (patterns (rulesOf "/w" ["*.log"; "*.tmp"])) ->
                        isNegation p = false).
  { intros p [<- | [<- | []]]; reflexivity. }
  split; [exact H|]. split; [reflexivity|]. split; [reflexivity|].
  exact (without_negation_order_is_irrelevant (osWith "a.tmp" false)
           (rulesOf "/w" ["*.log"; "*.tmp"]) "a.tmp" "a.tmp" false
           H eq_refl eq_refl).
Defined.

Lemma NewPatternList_keeps_file_order_witness :
  NewPatternList (fun s => s) exampleRuleFile ".project_structure_ignore" "/w"
  = Ok (rulesOf "/w" ["*.log"; "!keep.log"])
  /\ basePath (rulesOf "/w" ["*.log"; "!keep.log"]) = "/w"
  /\ List.map original (patterns (rulesOf "/w" ["*.log"; "!keep.log"]))
     = ["*.log"; "!keep.log"].
Proof.
  split; [reflexivity|].
  exact (NewPatternList_keeps_file_order (fun s => s) exampleRuleFile
           ".project_structure_ignore" "/w" (rulesOf "/w" ["*.log"; "!keep.log"])
           eq_refl).
Defined.

Lemma writeFileContents_directories_write_nothing_witness :
  (forall n, In n (preorder (Node "w" true [Node "src" true []; Node "doc" true []])) ->
             nodeIsDir n = true)
  /\ writeFileContents exampleTree
                       (Node "w" true [Node "src" true []; Node "doc" true []])
                       "/" "<report>"
     = ("<report>", None).
Proof.
  assert (H : forall n,
             In n (preorder (Node "w" true [Node "src" true []; Node "doc" true []])) ->
             nodeIsDir n = true).
  { intros n [<- | [<- | [<- | []]]]; reflexivity. }
  split; [exact H|].
  exact (writeFileContents_directories_write_nothing exampleTree _ "/" "<report>" H).
Defined.

Lemma builtin_skips_override_rules_witness :
  Matches (tree_os exampleTree) (rulesOf "/w" ["*.log"; "!keep.log"]) "/w/keep.log"
  = Ok false
  /\ entry_Info (exampleEntry "keep.log" false)
     = Some {| info_IsDir := false; info_Size := 3 |}
  /\ mapGet skipExtensions
            (stringsToLower (fun s => s) (filepathExt "keep.log")) = true
  /\ shouldSkipFile (fun s => s) exampleTree (exampleEntry "keep.log" false)
                    "/w/keep.log" (Some (rulesOf "/w" ["*.log"; "!keep.log"]))
     = Ret true.
Proof.
  split; [reflexivity|]. split; [reflexivity|]. split; [reflexivity|].
  apply (builtin_skips_override_rules (fun s => s) exampleTree
           (exampleEntry "keep.log" false) "/w/keep.log"
           (Some (rulesOf "/w" ["*.log"; "!keep.log"]))
           {| info_IsDir := false; info_Size := 3 |} eq_refl).
  right. right. split; [reflexivity|]. left. reflexivity.
Defined.

Lemma directories_skipped_by_name_or_rule_only_witness :
  entry_Info (exampleEntry "photos.png" true)
  = Some {| info_IsDir := true; info_Size := 3 |}
  /\ info_IsDir {| info_IsDir := true; info_Size := 3 |} = true
  /\ shouldSkipFile (fun s => s) exampleTree (exampleEntry "photos.png" true)
                    "/w/photos.png" (Some (rulesOf "/w" ["*.log"]))
     = Ret false.
Proof.
  split; [reflexivity|]. split; [reflexivity|].
  exact (directories_skipped_by_name_or_rule_only (fun s => s) exampleTree
           (exampleEntry "photos.png" true) "/w/photos.png"
           (Some (rulesOf "/w" ["*.log"]))
           {| info_IsDir := true; info_Size := 3 |} eq_refl eq_refl).
Defined.

Lemma extension_is_matched_without_case_witness :
  entry_Name (exampleEntry "Photo.PNG" false) = "Photo" ++ "." ++ "PNG"
  /\ Strings.ContainsByte "PNG" "." = false
  /\ Strings.ContainsByte "PNG" "/" = false
  /\ allBytes isASCIIByte "PNG" = true
  /\ mapGet skipExtensions ("." ++ mapBytes lowerByte "PNG") = true
  /\ shouldSkipFile (fun s => s) exampleTree (exampleEntry "Photo.PNG" false)
                    "/w/Photo.PNG" None
     = Ret true.
Proof.
  split; [reflexivity|]. split; [reflexivity|]. split; [reflexivity|].
  split; [reflexivity|]. split; [reflexivity|].
  exact (extension_is_matched_without_case (fun s => s) exampleTree
           (exampleEntry "Photo.PNG" false) "/w/Photo.PNG" None
           {| info_IsDir := false; info_Size := 3 |} "Photo" "PNG"
           eq_refl eq_refl eq_refl eq_refl eq_refl eq_refl eq_refl).
Defined.

Lemma createTree_children_are_kept_entries_witness :
  os_Stat (tree_os exampleTree) "/w" = StatOk true
  /\ os_ReadDir exampleTree "/w"
     = Some [ exampleEntry "a.png" false; exampleEntry "build" true;
              exampleEntry "keep.log" false; exampleEntry "notes.txt" false;
              exampleEntry "src" true ]
  /\ createTree (fun s => s) 3 exampleTree "/w" (Some exampleRules)
     = Ret (Node "w" true
                 [Node "notes.txt" false [];
                  Node "src" true [Node "main.go" false []]])
  /\ List.filter (keepsEntry (fun s => s) exampleTree "/w" (Some exampleRules))
                 [ exampleEntry "a.png" false; exampleEntry "build" true;
                   exampleEntry "keep.log" false; exampleEntry "notes.txt" false;
                   exampleEntry "src" true ]
     = [ exampleEntry "notes.txt" false; exampleEntry "src" true ]
  /\ nodeName (Node "w" true
                    [Node "notes.txt" false [];
                     Node "src" true [Node "main.go" false []]])
     = stat_Name exampleTree "/w".
Proof.
  split; [reflexivity|]. split; [reflexivity|]. split; [reflexivity|].
  split; [reflexivity|].
  exact (proj1 (createTree_children_are_kept_entries (fun s => s) 2 exampleTree "/w"
                  (Some exampleRules) _ _ eq_refl eq_refl eq_refl)).
Defined.

Lemma exampleDepth_decreases :
  forall dir entries entry,
    os_ReadDir exampleTree dir = Some entries ->
    In entry entries ->
    (exampleDepth (filepathJoin dir (entry_Name entry)) < exampleDepth dir)%nat.
Proof.
  intros dir entries entry Hread Hin.
  change (os_ReadDir exampleTree dir) with (exampleReadDir dir) in Hread.
  unfold exampleReadDir in Hread.
  destruct (String.eqb_spec dir "/w") as [-> | _].
  - injection Hread as <-.
    destruct Hin as [<- | [<- | [<- | [<- | [<- | []]]]]]; vm_compute; lia.
  - destruct (String.eqb_spec dir "/w/src") as [-> | _]; [|discriminate Hread].
    injection Hread as <-.
    destruct Hin as [<- | [<- | []]]; vm_compute; lia.
Defined.

Lemma createTree_terminates_on_finite_depth_witness :
  (exampleDepth "/w" < 9)%nat
  /\ ((exists node,
          createTree (fun s => s) 9 exampleTree "/w" (Some exampleRules) = Ret node)
      \/ (exists e,
             createTree (fun s => s) 9 exampleTree "/w" (Some exampleRules)
             = Raise e))
  /\ createTree (fun s => s) 9 exampleTree "/w" (Some exampleRules)
     = createTree (fun s => s) (S (exampleDepth "/w")) exampleTree "/w"
                  (Some exampleRules).
Proof.
  assert (Hlt : (exampleDepth "/w" < 9)%nat) by (vm_compute; lia).
  split; [exact Hlt|].
  exact (createTree_terminates_on_finite_depth (fun s => s) exampleTree
           exampleDepth (Some exampleRules) "/w" 9 exampleDepth_decreases Hlt).
Defined.

Lemma createTree_files_are_leaves_witness :
  createTree (fun s => s) 3 exampleTree "/w" (Some exampleRules)
  = Ret (Node "w" true
              [Node "notes.txt" false [];
               Node "src" true [Node "main.go" false []]])
  /\ Forall leafIfFile
            (preorder (Node "w" true
                            [Node "notes.txt" false [];
                             Node "src" true [Node "main.go" false []]])).
Proof.
  split; [reflexivity|].
  exact (createTree_files_are_leaves (fun s => s) 3 exampleTree "/w"
           (Some exampleRules) _ eq_refl).
Defined.

Lemma negation_keeps_what_a_rule_matches_witness :
  Strings.HasPrefix "build" "!" = false
  /\ compilePattern "build" = Ok (compiled "build")
  /\ compilePattern ("!" ++ "build") = Ok (compiled "!build")
  /\ isNegation (compiled "!build") = true
  /\ matches (compiled "!build") "build" true = matches (compiled "build") "build" true.
Proof.
  split; [reflexivity|]. split; [reflexivity|]. split; [reflexivity|].
  destruct (negation_keeps_what_a_rule_matches "build" (compiled "build")
              (compiled "!build") eq_refl eq_refl eq_refl) as [_ [Hneg Hsame]].
  split; [exact Hneg | exact (Hsame "build" true)].
Defined.

Lemma trailing_slash_only_restricts_to_directories_witness :
  Strings.HasSuffix "build" "/" = false
  /\ compilePattern "build" = Ok (compiled "build")
  /\ compilePattern ("build" ++ "/") = Ok (compiled "build/")
  /\ matches (compiled "build/") "build" true = matches (compiled "build") "build" true
  /\ matches (compiled "build/") "build" false = Ok false.
Proof.
  split; [reflexivity|]. split; [reflexivity|]. split; [reflexivity|].
  exact (trailing_slash_only_restricts_to_directories "build" (compiled "build")
           (compiled "build/") eq_refl eq_refl eq_refl "build").
Defined.

Lemma legacy_adding_a_rule_never_unmatches_witness :
  let pl := {| Legacy.patterns := [ {| Legacy.extension := ".log";
                                       Legacy.directory := "" |} ];
               Legacy.basePath := "/w";
               Legacy.matchType := Legacy.Ignore |} in
  let pl' := {| Legacy.patterns := [ {| Legacy.extension := ".log";
                                        Legacy.directory := "" |};
                                     {| Legacy.extension := "";
                                        Legacy.directory := "src" |} ];
                Legacy.basePath := "/w";
                Legacy.matchType := Legacy.Ignore |} in
  Legacy.patterns pl <> []
  /\ Legacy.AddPattern pl "src/" = Ok pl'
  /\ Legacy.Matches (osWith "x" false) pl "a/b/debug.log" = true
  /\ Legacy.Matches (osWith "x" false) pl' "a/b/debug.log" = true.
Proof.
  intros pl pl'.
  assert (Hne : Legacy.patterns pl <> []) by discriminate.
  split; [exact Hne|]. split; [reflexivity|]. split; [reflexivity|].
  exact (legacy_adding_a_rule_never_unmatches (osWith "x" false) pl pl' "src/"
           "a/b/debug.log" Hne eq_refl eq_refl).
Defined.

Lemma legacy_rules_match_whole_path_witness :
  let pl := {| Legacy.patterns := []; Legacy.basePath := "/w";
               Legacy.matchType := Legacy.Ignore |} in
  let withLog := {| Legacy.patterns := [ {| Legacy.extension := ".log";
                                            Legacy.directory := "" |} ];
                    Legacy.basePath := "/w";
                    Legacy.matchType := Legacy.Ignore |} in
  let withSrc := {| Legacy.patterns := [ {| Legacy.extension := "";
                                            Legacy.directory := "src" |} ];
                    Legacy.basePath := "/w";
                    Legacy.matchType := Legacy.Ignore |} in
  Legacy.AddPattern pl "*.log" = Ok withLog
  /\ Filepath.IsAbs "a/b/debug.log" = false
  /\ Strings.HasSuffix (Filepath.Clean "a/b/debug.log") ("." ++ "log") = true
  /\ Legacy.Matches (osWith "x" false) withLog "a/b/debug.log" = true
  /\ Legacy.AddPattern pl "src" = Ok withSrc
  /\ Strings.HasPrefix "src" "*." = false
  /\ Strings.HasPrefix (Filepath.Clean "src2/main.go") (Filepath.Clean "src") = true
  /\ Legacy.Matches (osWith "x" false) withSrc "src2/main.go" = true.
Proof.
  intros pl withLog withSrc.
  split; [reflexivity|]. split; [reflexivity|]. split; [reflexivity|]. split.
  - exact (proj1 (legacy_rules_match_whole_path (osWith "x" false) pl withLog
                    "*.log" "a/b/debug.log" eq_refl eq_refl)
                 "log" eq_refl eq_refl).
  - split; [reflexivity|]. split; [reflexivity|]. split; [reflexivity|].
    exact (proj2 (legacy_rules_match_whole_path (osWith "x" false) pl withSrc
                    "src" "src2/main.go" eq_refl eq_refl)
                 eq_refl eq_refl).
Defined.

Lemma printTree_indents_below_root_witness :
  nth_error [Node "src" true []; Node "a.go" false []] 1
  = Some (Node "a.go" false [])
  /\ exists rest before after,
      printTree (Node "w" true [Node "src" true []; Node "a.go" false []]) "" true
      = "[w]" :: rest
      /\ rest = (before ++ "    └── a.go" :: after)%list.
Proof.
  split; [reflexivity|].
  destruct (printTree_indents_below_root
              "w" true [Node "src" true []; Node "a.go" false []] true)
    as [rest [E [_ Hchild]]].
  destruct (Hchild (Node "a.go" false []) 1%nat eq_refl) as [before [after Hrest]].
  exists rest, before, after. split; [exact E | exact Hrest].
Defined.

Lemma trailing_double_star_matches_below_witness :
  isExact (compiled "build/**") = false
  /\ segments (compiled "build/**") = (["build"] ++ ["**"])%list
  /\ isExact (compiled "build/**/") = false
  /\ segments (compiled "build/**/") = (["build"] ++ ["**"])%list
  /\ matchSegments ["build"] (Strings.Split "build" "/") = Ok true
  /\ matches (compiled "build/**") "build" true = Ok true
  /\ matches (compiled "build/**") ("build" ++ "/" ++ "obj/main.o") false = Ok true
  /\ matches (compiled "build/**/") ("build" ++ "/" ++ "obj") true = Ok true
  /\ matches (compiled "build/**/") ("build" ++ "/" ++ "obj/main.o") false
     = Ok false.
Proof.
  split; [reflexivity|]. split; [reflexivity|]. split; [reflexivity|].
  split; [reflexivity|]. split; [reflexivity|]. split; [|split; [|split]].
  - exact (proj1 (trailing_double_star_matches_below (compiled "build/**") ["build"]
                    "build" "obj/main.o" true eq_refl eq_refl eq_refl)).
  - exact (proj2 (trailing_double_star_matches_below (compiled "build/**") ["build"]
                    "build" "obj/main.o" false eq_refl eq_refl eq_refl)).
  - exact (proj2 (trailing_double_star_matches_below (compiled "build/**/") ["build"]
                    "build" "obj" true eq_refl eq_refl eq_refl)).
  - exact (proj2 (trailing_double_star_matches_below (compiled "build/**/") ["build"]
                    "build" "obj/main.o" false eq_refl eq_refl eq_refl)).
Defined.

Lemma legacy_determinePatternType_picks_existing_file_witness :
  Legacy.determinePatternType (osWith ".project_structure_filter" false)
                              ".project_structure_ignore"
                              ".project_structure_filter"
  = Ok (".project_structure_filter", Legacy.Filter)
  /\ ((exists isDirectory,
          os_Stat (osWith ".project_structure_filter" false)
                  ".project_structure_filter" = StatOk isDirectory)
      \/ (".project_structure_filter" = ".project_structure_ignore"
          /\ os_WriteFile (osWith ".project_structure_filter" false)
                          ".project_structure_ignore" = true)).
Proof.
  split; [reflexivity|].
  exact (proj1 (legacy_determinePatternType_picks_existing_file
                  (osWith ".project_structure_filter" false)
                  ".project_structure_ignore" ".project_structure_filter"
                  ".project_structure_filter" Legacy.Filter eq_refl)).
Defined.

(** * Compiling rules and reading the rule file *)











